(** * Front Manager: the local state and mutation protocol of [scripts/main.js]

    A shallow embedding of the [FrontManagerApp] class: its private state,
    the remote-store calls, the entity accessors, the context preparation and
    the click handlers registered in [_onRender], followed by the properties
    of the specification that concern them. *)

From Stdlib Require Import String Ascii ZArith.
From stdpp Require Import base option list gmap pretty.

Local Open Scope N_scope.

(** ** JavaScript strings

    A JavaScript string is a sequence of UTF-16 code units.  Literals of the
    source that are plain ASCII are written with [js]. *)

Definition jsstring : Type := list N.

Definition js (s : string) : jsstring :=
  (fun a => N_of_ascii a) <$> list_ascii_of_string s.
Arguments js : simpl never.

(** The code units removed by [String.prototype.trim]: the WhiteSpace and
    LineTerminator productions of ECMAScript. *)
Definition isWhiteSpace (c : N) : bool :=
  bool_decide (c ∈ [9; 10; 11; 12; 13; 32; 160; 5760; 8232; 8233; 8239; 8287;
                    12288; 65279])
  || ((8192 <=? c) && (c <=? 8202)).

Fixpoint trimStart (s : jsstring) : jsstring :=
  match s with
  | c :: s' => if isWhiteSpace c then trimStart s' else s
  | [] => []
  end.

Definition trimEnd (s : jsstring) : jsstring :=
  reverse (trimStart (reverse s)).

Definition trim (s : jsstring) : jsstring := trimEnd (trimStart s).

(** Truthiness of a string, and [a || b] on strings. *)
Definition truthy (s : jsstring) : bool :=
  match s with [] => false | _ :: _ => true end.

Definition or_else (a b : jsstring) : jsstring :=
  if truthy a then a else b.

(** ** Data model

    Fields that the code guards with [if (!x.field)] or [?.] before use are
    optional ([None] is [undefined]); [front.dangers] is used unguarded
    everywhere, as are the scalar fields.  An array of strings may hold empty
    slots: an index assignment past the end leaves holes, which come back as
    [null] after a round trip. *)

Definition slot : Type := option jsstring.

Record Portent := mkPortent {
  portent_id : jsstring;
  portent_text : jsstring;
  completed : bool
}.

Record Secret := mkSecret {
  secret_id : jsstring;
  xp : Z;
  secret_text : jsstring;
  revealed : bool;
  revealedAt : option jsstring
}.

Record Danger := mkDanger {
  danger_id : jsstring;
  danger_name : jsstring;
  dangerType : jsstring;
  impulse : jsstring;
  impendingDoom : jsstring;
  grimPortents : option (list Portent);
  secrets : option (list Secret);
  locations : option (list slot)
}.

Record Front := mkFront {
  front_id : jsstring;
  front_name : jsstring;
  front_type : jsstring;
  cast : option (list slot);
  stakes : option (list slot);
  playerHooks : option (list slot);
  dangers : list Danger
}.

Record FrontsDocument := mkDocument {
  fronts : option (list Front)
}.

(** Field assignments. *)
Definition set_front_name (v : jsstring) (f : Front) : Front :=
  mkFront (front_id f) v (front_type f) (cast f) (stakes f) (playerHooks f)
          (dangers f).
Definition set_cast (v : option (list slot)) (f : Front) : Front :=
  mkFront (front_id f) (front_name f) (front_type f) v (stakes f)
          (playerHooks f) (dangers f).
Definition set_stakes (v : option (list slot)) (f : Front) : Front :=
  mkFront (front_id f) (front_name f) (front_type f) (cast f) v
          (playerHooks f) (dangers f).
Definition set_dangers (v : list Danger) (f : Front) : Front :=
  mkFront (front_id f) (front_name f) (front_type f) (cast f) (stakes f)
          (playerHooks f) v.

Definition set_danger_name (v : jsstring) (d : Danger) : Danger :=
  mkDanger (danger_id d) v (dangerType d) (impulse d) (impendingDoom d)
           (grimPortents d) (secrets d) (locations d).
Definition set_dangerType (v : jsstring) (d : Danger) : Danger :=
  mkDanger (danger_id d) (danger_name d) v (impulse d) (impendingDoom d)
           (grimPortents d) (secrets d) (locations d).
Definition set_impulse (v : jsstring) (d : Danger) : Danger :=
  mkDanger (danger_id d) (danger_name d) (dangerType d) v (impendingDoom d)
           (grimPortents d) (secrets d) (locations d).
Definition set_impendingDoom (v : jsstring) (d : Danger) : Danger :=
  mkDanger (danger_id d) (danger_name d) (dangerType d) (impulse d) v
           (grimPortents d) (secrets d) (locations d).
Definition set_grimPortents (v : option (list Portent)) (d : Danger) : Danger :=
  mkDanger (danger_id d) (danger_name d) (dangerType d) (impulse d)
           (impendingDoom d) v (secrets d) (locations d).
Definition set_secrets (v : option (list Secret)) (d : Danger) : Danger :=
  mkDanger (danger_id d) (danger_name d) (dangerType d) (impulse d)
           (impendingDoom d) (grimPortents d) v (locations d).
Definition set_locations (v : option (list slot)) (d : Danger) : Danger :=
  mkDanger (danger_id d) (danger_name d) (dangerType d) (impulse d)
           (impendingDoom d) (grimPortents d) (secrets d) v.

Definition set_portent_text (v : jsstring) (p : Portent) : Portent :=
  mkPortent (portent_id p) v (completed p).
Definition set_xp (v : Z) (s : Secret) : Secret :=
  mkSecret (secret_id s) v (secret_text s) (revealed s) (revealedAt s).
Definition set_secret_text (v : jsstring) (s : Secret) : Secret :=
  mkSecret (secret_id s) (xp s) v (revealed s) (revealedAt s).

(** ** Arrays *)

(** [a[i] = v]: in range the element is replaced; past the end the array is
    extended, the skipped positions being holes. *)
Definition array_set (a : list slot) (i : nat) (v : jsstring) : list slot :=
  if decide (i < length a)%nat then <[i := Some v]> a
  else a ++ replicate (i - length a) None ++ [Some v].

(** [a.splice(i, 1)] for an index [i >= 0]: nothing is removed past the end. *)
Definition splice1 {A} (a : list A) (i : nat) : list A := delete i a.

(** [a.push(v)] on an array that is created first when missing. *)
Definition push_onto {A} (a : option (list A)) (v : A) : option (list A) :=
  Some (default [] a ++ [v]).

(** ** Application state: the private fields of [FrontManagerApp] *)

Record App := mkApp {
  frontsData : option FrontsDocument;
  expandedFronts : gset jsstring;
  expandedDangers : gset jsstring;
  loading : bool;
  error : option jsstring;
  scrollPosition : Z
}.

Definition set_frontsData (v : option FrontsDocument) (s : App) : App :=
  mkApp v (expandedFronts s) (expandedDangers s) (loading s) (error s)
        (scrollPosition s).
Definition set_expandedFronts (v : gset jsstring) (s : App) : App :=
  mkApp (frontsData s) v (expandedDangers s) (loading s) (error s)
        (scrollPosition s).
Definition set_expandedDangers (v : gset jsstring) (s : App) : App :=
  mkApp (frontsData s) (expandedFronts s) v (loading s) (error s)
        (scrollPosition s).
Definition set_loading (v : bool) (s : App) : App :=
  mkApp (frontsData s) (expandedFronts s) (expandedDangers s) v (error s)
        (scrollPosition s).
Definition set_error (v : option jsstring) (s : App) : App :=
  mkApp (frontsData s) (expandedFronts s) (expandedDangers s) (loading s) v
        (scrollPosition s).

(** The state of a freshly constructed application. *)
Definition initial : App := mkApp None ∅ ∅ false None 0%Z.

(** ** Effects

    What a run does to the outside: the two requests to the remote store, the
    request to re-render and the notifications.  [console] output is left
    out. *)

Inductive Event :=
| GetFronts
| PostSave (body_fronts : option (list Front))
| Render
| NotifyInfo (msg : jsstring)
| NotifyError (msg : jsstring).

(** Exceptions: an [Error] with its message, or the [TypeError] of reading a
    property of [null] or [undefined]. *)
Inductive Exn :=
| Error (message : jsstring)
| CannotRead (of_null : bool) (property : string).

(** [err.message]; the text of the [TypeError] is the one of V8. *)
Definition message_of (e : Exn) : jsstring :=
  match e with
  | Error m => m
  | CannotRead of_null p =>
      js "Cannot read properties of "
      ++ js (if of_null then "null" else "undefined")
      ++ js " (reading '" ++ js p ++ js "')"
  end.

Inductive Result (A : Type) :=
| Return (a : A)
| Throw (e : Exn).
Arguments Return {A} a.
Arguments Throw {A} e.

(** A computation reads and writes the application state, appends to the
    trace of events, and completes normally or abruptly. *)
Definition M (A : Type) : Type := App -> Result A * App * list Event.

Definition ret {A} (a : A) : M A := fun s => (Return a, s, []).

Definition bind {A B} (m : M A) (k : A -> M B) : M B := fun s =>
  match m s with
  | (Return a, s1, t1) => let '(r, s2, t2) := k a s1 in (r, s2, t1 ++ t2)
  | (Throw e, s1, t1) => (Throw e, s1, t1)
  end.

Definition throw {A} (e : Exn) : M A := fun s => (Throw e, s, []).
Definition get_app : M App := fun s => (Return s, s, []).
Definition modify (f : App -> App) : M unit := fun s => (Return tt, f s, []).
Definition emit (e : Event) : M unit := fun s => (Return tt, s, [e]).

(** [try { m } catch (err) { h err }] *)
Definition try_catch {A} (m : M A) (h : Exn -> M A) : M A := fun s =>
  match m s with
  | (Throw e, s1, t1) => let '(r, s2, t2) := h e s1 in (r, s2, t1 ++ t2)
  | done => done
  end.

(** [try { m } finally { f }] *)
Definition try_finally {A} (m : M A) (f : M unit) : M A := fun s =>
  let '(r, s1, t1) := m s in
  match f s1 with
  | (Return _, s2, t2) => (r, s2, t1 ++ t2)
  | (Throw e, s2, t2) => (Throw e, s2, t1 ++ t2)
  end.

Declare Scope js_scope.
Delimit Scope js_scope with js.
Notation "x <- m ;; k" := (bind m (fun x => k))
  (at level 100, m at next level, right associativity) : js_scope.
Notation "m ;; k" := (bind m (fun _ => k))
  (at level 100, right associativity) : js_scope.
Local Open Scope js_scope.

Definition when (b : bool) (m : M unit) : M unit := if b then m else ret tt.

(** Projections of a finished run. *)
Definition result_of {A} (x : Result A * App * list Event) : Result A := x.1.1.
Definition app_of {A} (x : Result A * App * list Event) : App := x.1.2.
Definition trace_of {A} (x : Result A * App * list Event) : list Event := x.2.

(** ** The remote store as seen from the client

    What [fetch] and [response.json()] can answer.  The promise of [fetch] is
    rejected on a transport failure; otherwise there is a response with a
    status, whose body either fails to parse or is a JSON value: a document
    object or [null]. *)

Inductive Body :=
| BadJson (message : jsstring)
| Json (value : option FrontsDocument).

Inductive Reply :=
| Rejected (message : jsstring)
| Response (status : N) (body : Body).

(** [response.ok] *)
Definition ok (status : N) : bool := (200 <=? status) && (status <=? 299).

(** [await fetch(...)] followed by the status check of both callers. *)
Definition await_checked (r : Reply) : M Body :=
  match r with
  | Rejected m => throw (Error m)
  | Response status body =>
      if negb (ok status)
      then throw (Error (js "Server error: " ++ js (pretty status)))
      else ret body
  end.

(** [await response.json()] *)
Definition json (b : Body) : M (option FrontsDocument) :=
  match b with
  | BadJson m => throw (Error m)
  | Json v => ret v
  end.

(** [#fetchFronts].  The [console.log] after the assignment reads
    [this.#frontsData.fronts], which throws when the body was [null]. *)
Definition fetchFronts (reply : Reply) : M unit :=
  modify (set_loading true);;
  modify (set_error None);;
  try_finally
    (try_catch
       (emit GetFronts;;
        body <- await_checked reply;;
        data <- json body;;
        modify (set_frontsData data);;
        match data with
        | None => throw (CannotRead true "fronts")
        | Some _ => ret tt
        end)
       (fun err =>
          modify (set_error
            (Some (js "Verbindung zum Server fehlgeschlagen: "
                   ++ message_of err)))))
    (modify (set_loading false)).

(** [#saveFronts].  The request body is built from
    [this.#frontsData.fronts] before the request is issued. *)
Definition saveFronts (reply : Reply) : M bool :=
  try_catch
    (s <- get_app;;
     doc <- match frontsData s with
            | None => throw (CannotRead true "fronts")
            | Some d => ret d
            end;;
     emit (PostSave (fronts doc));;
     _ <- await_checked reply;;
     ret true)
    (fun err =>
       emit (NotifyError (js "Fehler beim Speichern: " ++ message_of err));;
       ret false).

(** What the remote store and the id generator answer during one handler
    run: a handler saves at most once, refetches at most once and creates at
    most one entity. *)
Record Env := mkEnv {
  saveReply : Reply;
  fetchReply : Reply;
  now : N;
  random : jsstring
}.

(** [#generateId(prefix)] with [Date.now()] and the base-36 digits drawn from
    [Math.random()] supplied by the environment. *)
Definition generateId (env : Env) (prefix : string) : jsstring :=
  js prefix ++ js "-" ++ js (pretty (now env)) ++ js "-" ++ random env.

(** ** Object references

    An accessor returns an object of the document, not a copy: a later
    assignment through it is seen by [#saveFronts].  A reference is the
    object's field values together with its place in the in-memory document;
    [pos = None] is an object that is no longer part of it (the document was
    replaced after the reference was taken), so that writes through it are
    not seen. *)

Record ref (P T : Type) := Ref { pos : option P; obj : T }.
Arguments Ref {P T} pos obj.
Arguments pos {P T} r.
Arguments obj {P T} r.

Definition FrontRef : Type := ref nat Front.
Definition DangerRef : Type := ref (nat * nat) Danger.
Definition PortentRef : Type := ref (nat * nat * nat) Portent.
Definition SecretRef : Type := ref (nat * nat * nat) Secret.

(** [this.#frontsData?.fronts || []] *)
Definition fronts_or_empty (s : App) : list Front :=
  match frontsData s with
  | Some doc => default [] (fronts doc)
  | None => []
  end.

(** [#getFront], [undefined] being [None]. *)
Definition getFront (s : App) (frontId : jsstring) : option FrontRef :=
  match frontsData s with
  | Some doc =>
      match fronts doc with
      | Some fs =>
          match list_find (fun f => front_id f = frontId) fs with
          | Some (i, f) => Some (Ref (Some i) f)
          | None => None
          end
      | None => None
      end
  | None => None
  end.

(** The [for ... of] loop of [#getDanger], [i] being the position of the
    front at the head of [fs]. *)
Fixpoint getDanger_loop (dangerId : jsstring) (i : nat) (fs : list Front)
  : option (FrontRef * DangerRef) :=
  match fs with
  | [] => None
  | front :: rest =>
      match list_find (fun d => danger_id d = dangerId) (dangers front) with
      | Some (j, danger) => Some (Ref (Some i) front, Ref (Some (i, j)) danger)
      | None => getDanger_loop dangerId (S i) rest
      end
  end.

(** [#getDanger], [null] being [None]. *)
Definition getDanger (s : App) (dangerId : jsstring)
  : option (FrontRef * DangerRef) :=
  getDanger_loop dangerId 0 (fronts_or_empty s).

(** [result?.danger?.grimPortents?.find(p => p.id === portentId)] *)
Definition findPortent (result : option (FrontRef * DangerRef))
  (portentId : jsstring) : option PortentRef :=
  match result with
  | Some (_, danger) =>
      match grimPortents (obj danger) with
      | Some ps =>
          match list_find (fun p => portent_id p = portentId) ps with
          | Some (k, p) =>
              Some (Ref ((fun '(i, j) => (i, j, k)) <$> pos danger) p)
          | None => None
          end
      | None => None
      end
  | None => None
  end.

(** [result?.danger?.secrets?.find(s => s.id === secretId)] *)
Definition findSecret (result : option (FrontRef * DangerRef))
  (secretId : jsstring) : option SecretRef :=
  match result with
  | Some (_, danger) =>
      match secrets (obj danger) with
      | Some ss =>
          match list_find (fun x => secret_id x = secretId) ss with
          | Some (k, x) =>
              Some (Ref ((fun '(i, j) => (i, j, k)) <$> pos danger) x)
          | None => None
          end
      | None => None
      end
  | None => None
  end.

(** Writing the new field values of an object back at its place. *)
Definition alter_fronts (g : list Front -> list Front) (s : App) : App :=
  set_frontsData
    ((fun doc => mkDocument (g <$> fronts doc)) <$> frontsData s) s.

Definition alter_danger (g : Danger -> Danger) (i j : nat) (s : App) : App :=
  alter_fronts (alter (fun f => set_dangers (alter g j (dangers f)) f) i) s.

Definition store_front (r : FrontRef) (f' : Front) : M unit :=
  match pos r with
  | Some i => modify (alter_fronts (fun fs => <[i := f']> fs))
  | None => ret tt
  end.

Definition store_danger (r : DangerRef) (d' : Danger) : M unit :=
  match pos r with
  | Some (i, j) => modify (alter_danger (fun _ => d') i j)
  | None => ret tt
  end.

Definition store_portent (r : PortentRef) (p' : Portent) : M unit :=
  match pos r with
  | Some (i, j, k) =>
      modify (alter_danger
        (fun d => set_grimPortents ((fun ps => <[k := p']> ps) <$> grimPortents d) d)
        i j)
  | None => ret tt
  end.

Definition store_secret (r : SecretRef) (x' : Secret) : M unit :=
  match pos r with
  | Some (i, j, k) =>
      modify (alter_danger
        (fun d => set_secrets ((fun ss => <[k := x']> ss) <$> secrets d) d)
        i j)
  | None => ret tt
  end.

(** ** Context preparation *)

(** [{...danger, expanded}] and [{...front, expanded, dangers}]: the spread
    object with the added flag; the [dangers] of the spread front are
    overridden by the mapped ones. *)
Record DangerView := mkDangerView {
  dv_spread : Danger;
  dv_expanded : bool
}.

Record FrontView := mkFrontView {
  fv_spread : Front;
  fv_expanded : bool;
  fv_dangers : list DangerView
}.

Record Context := mkContext {
  ctx_fronts : list FrontView;
  ctx_loading : bool;
  ctx_error : option jsstring
}.

Definition view_danger (s : App) (danger : Danger) : DangerView :=
  mkDangerView danger (bool_decide (danger_id danger ∈ expandedDangers s)).

Definition view_front (s : App) (front : Front) : FrontView :=
  mkFrontView front (bool_decide (front_id front ∈ expandedFronts s))
              (view_danger s <$> dangers front).

(** [_prepareContext] *)
Definition _prepareContext (reply : Reply) : M Context :=
  s <- get_app;;
  when (negb (bool_decide (is_Some (frontsData s))) && negb (loading s))
       (fetchFronts reply);;
  s <- get_app;;
  ret (mkContext (view_front s <$> fronts_or_empty s) (loading s) (error s)).

(** ** Local UI state: expanding and collapsing *)

(** The click handler of [toggle-front]; [onIconBtn] tells whether the click
    landed on an [.icon-btn] inside the header, which is ignored.  A
    JavaScript [Set] is used through [has], [add] and [delete] only, so its
    insertion order is never observed. *)
Definition toggleFront (onIconBtn : bool) (frontId : jsstring) : M unit :=
  if onIconBtn then ret tt
  else
    s <- get_app;;
    (if bool_decide (frontId ∈ expandedFronts s)
     then modify (set_expandedFronts (expandedFronts s ∖ {[frontId]}))
     else modify (set_expandedFronts ({[frontId]} ∪ expandedFronts s)));;
    emit Render.

(** The click handler of [toggle-danger]. *)
Definition toggleDanger (dangerId : jsstring) : M unit :=
  s <- get_app;;
  (if bool_decide (dangerId ∈ expandedDangers s)
   then modify (set_expandedDangers (expandedDangers s ∖ {[dangerId]}))
   else modify (set_expandedDangers ({[dangerId]} ∪ expandedDangers s)));;
  emit Render.

(** The public [refresh] method. *)
Definition refresh (reply : Reply) : M unit :=
  modify (set_frontsData None);;
  fetchFronts reply;;
  emit Render.

(** The click handler of the refresh button. *)
Definition onRefresh (reply : Reply) : M unit :=
  refresh reply;;
  emit (NotifyInfo (js "Fronten aktualisiert")).

(** ** Dialogs

    A dialog is modelled by the callback of its save button, run on the
    values of the submitted form; the cancel button has no callback. *)

(** The three lines that end every mutating path. *)
Definition save_fetch_render (env : Env) : M unit :=
  _ <- saveFronts (saveReply env);;
  fetchFronts (fetchReply env);;
  emit Render.

(** [#showEditTextDialog]: [raw] is the content of the textarea when the
    form is submitted.  The title and the initial content only shape what is
    shown. *)
Definition showEditTextDialog (raw : jsstring) (onSave : jsstring -> M unit)
  : M unit :=
  let value := trim raw in
  if truthy value
  then onSave value;; emit (NotifyInfo (js "Gespeichert"))
  else ret tt.

(** The options of the [xp] select and [parseInt] of their values. *)
Inductive XpOption := Xp20 | Xp30 | Xp50.

Definition xp_value (o : XpOption) : Z :=
  match o with Xp20 => 20 | Xp30 => 30 | Xp50 => 50 end%Z.

Definition quoted (s : jsstring) : jsstring := [34] ++ s ++ [34].

(** [#showAddFrontDialog] *)
Definition showAddFrontDialog (env : Env) (name type : jsstring) : M unit :=
  let name := trim name in
  if truthy name then
    let newFront :=
      mkFront (generateId env "front") name type
              (Some []) (Some []) (Some []) [] in
    s <- get_app;;
    match frontsData s with
    | None => throw (CannotRead true "fronts")
    | Some doc =>
        match fronts doc with
        | None => throw (CannotRead false "push")
        | Some _ => modify (alter_fronts (fun fs => fs ++ [newFront]))
        end
    end;;
    _ <- saveFronts (saveReply env);;
    fetchFronts (fetchReply env);;
    modify (fun s =>
      set_expandedFronts ({[front_id newFront]} ∪ expandedFronts s) s);;
    emit Render;;
    emit (NotifyInfo (js "Front " ++ quoted name ++ js " erstellt"))
  else ret tt.

(** [#showAddDangerDialog] *)
Definition showAddDangerDialog (env : Env) (frontId : jsstring)
  (name dangerType impulse doom : jsstring) : M unit :=
  let name := trim name in
  let dangerType := trim dangerType in
  let impulse := trim impulse in
  let doom := trim doom in
  if truthy name then
    s <- get_app;;
    match getFront s frontId with
    | Some front =>
        let newDanger :=
          mkDanger (generateId env "danger") name
                   (or_else dangerType (js "Unknown"))
                   (or_else impulse (js "to cause chaos"))
                   (or_else doom (js "Destruction"))
                   (Some []) (Some []) (Some []) in
        store_front front
          (set_dangers (dangers (obj front) ++ [newDanger]) (obj front));;
        _ <- saveFronts (saveReply env);;
        fetchFronts (fetchReply env);;
        modify (fun s =>
          set_expandedDangers ({[danger_id newDanger]} ∪ expandedDangers s) s);;
        emit Render;;
        emit (NotifyInfo (js "Danger " ++ quoted name ++ js " erstellt"))
    | None => ret tt
    end
  else ret tt.

(** [#showEditDangerDialog]: [result] is what [#getDanger] returned when the
    dialog was opened. *)
Definition showEditDangerDialog (env : Env)
  (result : option (FrontRef * DangerRef))
  (name dangerType impulse doom : jsstring) : M unit :=
  match result with
  | None => ret tt
  | Some (_, danger) =>
      store_danger danger
        (set_impendingDoom (trim doom)
          (set_impulse (trim impulse)
            (set_dangerType (trim dangerType)
              (set_danger_name (trim name) (obj danger)))));;
      save_fetch_render env;;
      emit (NotifyInfo (js "Danger aktualisiert"))
  end.

(** [#showAddSecretDialog] *)
Definition showAddSecretDialog (env : Env) (dangerId : jsstring)
  (xp : XpOption) (text : jsstring) : M unit :=
  let xp := xp_value xp in
  let text := trim text in
  if truthy text then
    s <- get_app;;
    match getDanger s dangerId with
    | Some (_, danger) =>
        store_danger danger
          (set_secrets
             (push_onto (secrets (obj danger))
                (mkSecret (generateId env "secret") xp text false None))
             (obj danger));;
        save_fetch_render env;;
        emit (NotifyInfo (js "Secret erstellt"))
    | None => ret tt
    end
  else ret tt.

(** [#showEditSecretDialog]: [secret] is the object found when the dialog was
    opened. *)
Definition showEditSecretDialog (env : Env) (secret : option SecretRef)
  (xp : XpOption) (text : jsstring) : M unit :=
  match secret with
  | None => ret tt
  | Some secret =>
      store_secret secret
        (set_secret_text (trim text) (set_xp (xp_value xp) (obj secret)));;
      save_fetch_render env;;
      emit (NotifyInfo (js "Secret aktualisiert"))
  end.

(** ** The mutating click handlers of [_onRender]

    [index] is [parseInt] of the [data-index] attribute, which the template
    writes from the position in the array.  A handler that looks its target
    up when the element is clicked and assigns to it in the dialog callback
    takes the reference that the lookup returned.  A run goes from the
    submitted form (or the click, where there is no dialog) to the end of the
    callback; the application is single-threaded and no other handler is
    taken to run while this one awaits the remote store. *)

Section Handlers.
Variable env : Env.

Definition editFrontName (frontId raw : jsstring) : M unit :=
  showEditTextDialog raw (fun newValue =>
    s <- get_app;;
    match getFront s frontId with
    | Some front =>
        store_front front (set_front_name newValue (obj front));;
        save_fetch_render env
    | None => ret tt
    end).

Definition addCast (frontId raw : jsstring) : M unit :=
  showEditTextDialog raw (fun newValue =>
    s <- get_app;;
    match getFront s frontId with
    | Some front =>
        store_front front
          (set_cast (push_onto (cast (obj front)) (Some newValue))
                    (obj front));;
        save_fetch_render env
    | None => ret tt
    end).

Definition editCast (front : option FrontRef) (index : nat) (raw : jsstring)
  : M unit :=
  showEditTextDialog raw (fun newValue =>
    match front with
    | Some front =>
        match cast (obj front) with
        | Some a =>
            store_front front
              (set_cast (Some (array_set a index newValue)) (obj front));;
            save_fetch_render env
        | None => ret tt
        end
    | None => ret tt
    end).

Definition deleteCast (frontId : jsstring) (index : nat) : M unit :=
  s <- get_app;;
  match getFront s frontId with
  | Some front =>
      match cast (obj front) with
      | Some a =>
          store_front front (set_cast (Some (splice1 a index)) (obj front));;
          save_fetch_render env
      | None => ret tt
      end
  | None => ret tt
  end.

Definition addStake (frontId raw : jsstring) : M unit :=
  showEditTextDialog raw (fun newValue =>
    s <- get_app;;
    match getFront s frontId with
    | Some front =>
        store_front front
          (set_stakes (push_onto (stakes (obj front)) (Some newValue))
                      (obj front));;
        save_fetch_render env
    | None => ret tt
    end).

Definition editStake (front : option FrontRef) (index : nat) (raw : jsstring)
  : M unit :=
  showEditTextDialog raw (fun newValue =>
    match front with
    | Some front =>
        match stakes (obj front) with
        | Some a =>
            store_front front
              (set_stakes (Some (array_set a index newValue)) (obj front));;
            save_fetch_render env
        | None => ret tt
        end
    | None => ret tt
    end).

Definition deleteStake (frontId : jsstring) (index : nat) : M unit :=
  s <- get_app;;
  match getFront s frontId with
  | Some front =>
      match stakes (obj front) with
      | Some a =>
          store_front front
            (set_stakes (Some (splice1 a index)) (obj front));;
          save_fetch_render env
      | None => ret tt
      end
  | None => ret tt
  end.

(** [confirmed] is what [Dialog.confirm] resolved to, as a truth value. *)
Definition deleteDanger (frontId dangerId : jsstring) (confirmed : bool)
  : M unit :=
  if confirmed then
    s <- get_app;;
    match getFront s frontId with
    | Some front =>
        store_front front
          (set_dangers
             (filter (fun d => danger_id d ≠ dangerId) (dangers (obj front)))
             (obj front));;
        save_fetch_render env
    | None => ret tt
    end
  else ret tt.

Definition editImpulse (result : option (FrontRef * DangerRef))
  (raw : jsstring) : M unit :=
  showEditTextDialog raw (fun newValue =>
    match result with
    | Some (_, danger) =>
        store_danger danger (set_impulse newValue (obj danger));;
        save_fetch_render env
    | None => ret tt
    end).

Definition editDoom (result : option (FrontRef * DangerRef))
  (raw : jsstring) : M unit :=
  showEditTextDialog raw (fun newValue =>
    match result with
    | Some (_, danger) =>
        store_danger danger (set_impendingDoom newValue (obj danger));;
        save_fetch_render env
    | None => ret tt
    end).

Definition addPortent (dangerId raw : jsstring) : M unit :=
  showEditTextDialog raw (fun newValue =>
    s <- get_app;;
    match getDanger s dangerId with
    | Some (_, danger) =>
        store_danger danger
          (set_grimPortents
             (push_onto (grimPortents (obj danger))
                (mkPortent (generateId env "portent") newValue false))
             (obj danger));;
        save_fetch_render env
    | None => ret tt
    end).

Definition editPortent (portent : option PortentRef) (raw : jsstring)
  : M unit :=
  showEditTextDialog raw (fun newValue =>
    match portent with
    | Some portent =>
        store_portent portent (set_portent_text newValue (obj portent));;
        save_fetch_render env
    | None => ret tt
    end).

Definition deletePortent (dangerId portentId : jsstring) : M unit :=
  s <- get_app;;
  match getDanger s dangerId with
  | Some (_, danger) =>
      match grimPortents (obj danger) with
      | Some ps =>
          store_danger danger
            (set_grimPortents
               (Some (filter (fun p => portent_id p ≠ portentId) ps))
               (obj danger));;
          save_fetch_render env
      | None => ret tt
      end
  | None => ret tt
  end.

Definition deleteSecret (dangerId secretId : jsstring) : M unit :=
  s <- get_app;;
  match getDanger s dangerId with
  | Some (_, danger) =>
      match secrets (obj danger) with
      | Some ss =>
          store_danger danger
            (set_secrets
               (Some (filter (fun x => secret_id x ≠ secretId) ss))
               (obj danger));;
          save_fetch_render env
      | None => ret tt
      end
  | None => ret tt
  end.

Definition addLocation (dangerId raw : jsstring) : M unit :=
  showEditTextDialog raw (fun newValue =>
    s <- get_app;;
    match getDanger s dangerId with
    | Some (_, danger) =>
        store_danger danger
          (set_locations
             (push_onto (locations (obj danger)) (Some newValue))
             (obj danger));;
        save_fetch_render env
    | None => ret tt
    end).

Definition editLocation (result : option (FrontRef * DangerRef))
  (index : nat) (raw : jsstring) : M unit :=
  showEditTextDialog raw (fun newValue =>
    match result with
    | Some (_, danger) =>
        match locations (obj danger) with
        | Some a =>
            store_danger danger
              (set_locations (Some (array_set a index newValue))
                             (obj danger));;
            save_fetch_render env
        | None => ret tt
        end
    | None => ret tt
    end).

Definition deleteLocation (dangerId : jsstring) (index : nat) : M unit :=
  s <- get_app;;
  match getDanger s dangerId with
  | Some (_, danger) =>
      match locations (obj danger) with
      | Some a =>
          store_danger danger
            (set_locations (Some (splice1 a index)) (obj danger));;
          save_fetch_render env
      | None => ret tt
      end
  | None => ret tt
  end.

End Handlers.

(** The mutating actions, each with what the user and the page supply: the
    [data-*] attributes of the clicked element, the values of the submitted
    form, the answer to the confirmation. *)
Inductive Action :=
| AddFront (name type : jsstring)
| EditFrontName (frontId raw : jsstring)
| AddCast (frontId raw : jsstring)
| EditCast (front : option FrontRef) (index : nat) (raw : jsstring)
| DeleteCast (frontId : jsstring) (index : nat)
| AddStake (frontId raw : jsstring)
| EditStake (front : option FrontRef) (index : nat) (raw : jsstring)
| DeleteStake (frontId : jsstring) (index : nat)
| AddDanger (frontId name dangerType impulse doom : jsstring)
| EditDanger (result : option (FrontRef * DangerRef))
             (name dangerType impulse doom : jsstring)
| DeleteDanger (frontId dangerId : jsstring) (confirmed : bool)
| EditImpulse (result : option (FrontRef * DangerRef)) (raw : jsstring)
| EditDoom (result : option (FrontRef * DangerRef)) (raw : jsstring)
| AddPortent (dangerId raw : jsstring)
| EditPortent (portent : option PortentRef) (raw : jsstring)
| DeletePortent (dangerId portentId : jsstring)
| AddSecret (dangerId : jsstring) (xp : XpOption) (text : jsstring)
| EditSecret (secret : option SecretRef) (xp : XpOption) (text : jsstring)
| DeleteSecret (dangerId secretId : jsstring)
| AddLocation (dangerId raw : jsstring)
| EditLocation (result : option (FrontRef * DangerRef)) (index : nat)
               (raw : jsstring)
| DeleteLocation (dangerId : jsstring) (index : nat).

(** The dispatch on [data-action]. *)
Definition handle (env : Env) (a : Action) : M unit :=
  match a with
  | AddFront name type => showAddFrontDialog env name type
  | EditFrontName frontId raw => editFrontName env frontId raw
  | AddCast frontId raw => addCast env frontId raw
  | EditCast front index raw => editCast env front index raw
  | DeleteCast frontId index => deleteCast env frontId index
  | AddStake frontId raw => addStake env frontId raw
  | EditStake front index raw => editStake env front index raw
  | DeleteStake frontId index => deleteStake env frontId index
  | AddDanger frontId name dangerType impulse doom =>
      showAddDangerDialog env frontId name dangerType impulse doom
  | EditDanger result name dangerType impulse doom =>
      showEditDangerDialog env result name dangerType impulse doom
  | DeleteDanger frontId dangerId confirmed =>
      deleteDanger env frontId dangerId confirmed
  | EditImpulse result raw => editImpulse env result raw
  | EditDoom result raw => editDoom env result raw
  | AddPortent dangerId raw => addPortent env dangerId raw
  | EditPortent portent raw => editPortent env portent raw
  | DeletePortent dangerId portentId => deletePortent env dangerId portentId
  | AddSecret dangerId xp text => showAddSecretDialog env dangerId xp text
  | EditSecret secret xp text => showEditSecretDialog env secret xp text
  | DeleteSecret dangerId secretId => deleteSecret env dangerId secretId
  | AddLocation dangerId raw => addLocation env dangerId raw
  | EditLocation result index raw => editLocation env result index raw
  | DeleteLocation dangerId index => deleteLocation env dangerId index
  end.

(** ** The toggle endpoints

    [/api/fronts/secret/toggle] and [/api/fronts/portent/toggle] answer like
    the other endpoints, with a JSON value of their own in the body. *)

Inductive BodyOf (J : Type) :=
| BadJsonOf (message : jsstring)
| JsonOf (value : J).
Arguments BadJsonOf {J} message.
Arguments JsonOf {J} value.

Inductive ReplyOf (J : Type) :=
| RejectedOf (message : jsstring)
| ResponseOf (status : N) (body : BodyOf J).
Arguments RejectedOf {J} message.
Arguments ResponseOf {J} status body.

(** [await fetch(...)] with the status check, and [await response.json()]. *)
Definition await_checked_of {J} (r : ReplyOf J) : M (BodyOf J) :=
  match r with
  | RejectedOf m => throw (Error m)
  | ResponseOf status body =>
      if negb (ok status)
      then throw (Error (js "Server error: " ++ js (pretty status)))
      else ret body
  end.

Definition json_of {J} (b : BodyOf J) : M J :=
  match b with
  | BadJsonOf m => throw (Error m)
  | JsonOf v => ret v
  end.

(** The body of the secret toggle: [null], or an object whose [secret] may
    be missing. *)
Record SecretResult := mkSecretResult {
  result_secret : option Secret
}.

(** [s.substring(0, n)] *)
Definition substring0 (s : jsstring) (n : nat) : jsstring := take n s.

(** What [#toggleSecret] does once its request is under way.  The notice is
    built from the secret of the answer; reading it comes after the refetch
    and the render. *)
Definition toggleSecret_answered (post : ReplyOf (option SecretResult))
  (fetchReply : Reply) : M unit :=
  try_catch
    (body <- await_checked_of post;;
     result <- json_of body;;
     fetchFronts fetchReply;;
     emit Render;;
     secret <- match result with
               | None => throw (CannotRead true "secret")
               | Some r =>
                   match result_secret r with
                   | None => throw (CannotRead false "revealed")
                   | Some x => ret x
                   end
               end;;
     if revealed secret
     then emit (NotifyInfo (js "Secret gel" ++ [252] ++ js "ftet: "
                            ++ substring0 (secret_text secret) 50
                            ++ js "..."))
     else emit (NotifyInfo (js "Secret zur" ++ [252] ++ js "ckgesetzt")))
    (fun err => emit (NotifyError (js "Fehler: " ++ message_of err))).

(** What [#togglePortent] does once its request is under way; the parsed
    body is only logged. *)
Definition togglePortent_answered (post : ReplyOf unit) (fetchReply : Reply)
  : M unit :=
  try_catch
    (body <- await_checked_of post;;
     _ <- json_of body;;
     fetchFronts fetchReply;;
     emit Render)
    (fun err => emit (NotifyError (js "Fehler: " ++ message_of err))).

(** The effects of a toggle: the request with the ids of its body, then the
    events of the run. *)
Inductive Sent :=
| ToggleRequest (path : string) (dangerId itemId : jsstring)
| Then (e : Event).

(** [#toggleSecret] *)
Definition toggleSecret (dangerId secretId : jsstring)
  (post : ReplyOf (option SecretResult)) (fetchReply : Reply) (s : App)
  : Result unit * App * list Sent :=
  let '(r, s', t) := toggleSecret_answered post fetchReply s in
  (r, s', ToggleRequest "/api/fronts/secret/toggle" dangerId secretId
          :: (Then <$> t)).

(** [#togglePortent] *)
Definition togglePortent (dangerId portentId : jsstring)
  (post : ReplyOf unit) (fetchReply : Reply) (s : App)
  : Result unit * App * list Sent :=
  let '(r, s', t) := togglePortent_answered post fetchReply s in
  (r, s', ToggleRequest "/api/fronts/portent/toggle" dangerId portentId
          :: (Then <$> t)).

(** * The vocabulary of the properties *)

(** ** Outcomes of a request *)

(** A request fails by a transport failure or a non-success status. *)
Definition fails (reply : Reply) : bool :=
  match reply with
  | Rejected _ => true
  | Response status _ => negb (ok status)
  end.

(** A fetch delivers a document when the status is a success and the body
    parses to a document object. *)
Definition delivers (reply : Reply) (d : FrontsDocument) : Prop :=
  exists status, reply = Response status (Json (Some d)) /\ ok status = true.

(** ** The accessors as the specification words them *)

(** The pairs of a front and one of its dangers, in the order of the scan. *)
Definition owned (fs : list Front) : list (Front * Danger) :=
  fs ≫= fun f => (fun d => (f, d)) <$> dangers f.

(** [findFront]: the first front with the id, if any. *)
Definition findFront_spec (s : App) (frontId : jsstring) : option Front :=
  head (filter (fun f => front_id f = frontId) (fronts_or_empty s)).

(** [findDanger]: the first danger with the id over all fronts' dangers,
    paired with the front that owns it. *)
Definition findDanger_spec (s : App) (dangerId : jsstring)
  : option (Front * Danger) :=
  head (filter (fun p => danger_id p.2 = dangerId) (owned (fronts_or_empty s))).

(** ** A save and a refetch seen from a handler *)

(** The message of the error that a failed request raises. *)
Definition failure_message (reply : Reply) : jsstring :=
  match reply with
  | Rejected m => m
  | Response status _ => js "Server error: " ++ js (pretty status)
  end.

(** What [#saveFronts] returns, the events it leaves and the state after
    [#fetchFronts]. *)
Definition saved (reply : Reply) (s : App) : bool :=
  match frontsData s with
  | Some _ => negb (fails reply)
  | None => false
  end.
Definition save_events (reply : Reply) (s : App) : list Event :=
  trace_of (saveFronts reply s).
Definition fetched (reply : Reply) (s : App) : App :=
  app_of (fetchFronts reply s).
Arguments save_events : simpl never.
Arguments fetched : simpl never.

(** ** The state after context preparation *)

(** The guard of [_prepareContext]: no document yet and no fetch running. *)
Definition must_fetch (s : App) : bool :=
  negb (bool_decide (is_Some (frontsData s))) && negb (loading s).

Definition after_prepare (reply : Reply) (s : App) : App :=
  if must_fetch s then app_of (fetchFronts reply s) else s.

(** ** Resolution of the target of an action *)

Definition absent {A} (o : option A) : bool :=
  match o with None => true | Some _ => false end.

(** Whether the lookup of the entity an action works on came back empty: the
    call of [#getFront] or [#getDanger] its handler makes, or the reference
    it was given when the lookup is made on opening the dialog.  Creating a
    front looks nothing up. *)
Definition target_absent (s : App) (a : Action) : bool :=
  match a with
  | AddFront _ _ => false
  | EditFrontName frontId _ | AddCast frontId _ | DeleteCast frontId _
  | AddStake frontId _ | DeleteStake frontId _
  | AddDanger frontId _ _ _ _ | DeleteDanger frontId _ _ =>
      absent (getFront s frontId)
  | EditCast front _ _ | EditStake front _ _ => absent front
  | EditDanger result _ _ _ _ | EditImpulse result _ | EditDoom result _
  | EditLocation result _ _ => absent result
  | AddPortent dangerId _ | DeletePortent dangerId _
  | AddSecret dangerId _ _ | DeleteSecret dangerId _
  | AddLocation dangerId _ | DeleteLocation dangerId _ =>
      absent (getDanger s dangerId)
  | EditPortent portent _ => absent portent
  | EditSecret secret _ _ => absent secret
  end.

(** Events that reach the remote store or report an error. *)
Definition is_save (e : Event) : bool :=
  match e with PostSave _ => true | _ => false end.
Definition is_fetch (e : Event) : bool :=
  match e with GetFronts => true | _ => false end.
Definition is_render (e : Event) : bool :=
  match e with Render => true | _ => false end.
Definition is_error_notice (e : Event) : bool :=
  match e with NotifyError _ => true | _ => false end.
Definition is_info (e : Event) : bool :=
  match e with NotifyInfo _ => true | _ => false end.

(** ** Answers of the toggle endpoints *)

(** The parsed body of an answer with a success status; nothing when the
    request is rejected, the status is not a success or the body does not
    parse. *)
Definition answer_of {J} (r : ReplyOf J) : option J :=
  match r with
  | ResponseOf status (JsonOf v) => if ok status then Some v else None
  | _ => None
  end.

(** The message of the error raised when there is no such body. *)
Definition failure_of {J} (r : ReplyOf J) : jsstring :=
  match r with
  | RejectedOf m => m
  | ResponseOf status body =>
      if ok status
      then match body with BadJsonOf m => m | JsonOf _ => [] end
      else js "Server error: " ++ js (pretty status)
  end.

(** ** Entities that an action creates *)

(** The id of the front (of the danger) a run of the action creates: the
    form must carry a name and the place to put the entity must be there. *)
Definition created_front (env : Env) (s : App) (a : Action) : option jsstring :=
  match a with
  | AddFront name _ =>
      if truthy (trim name) && negb (absent (frontsData s ≫= fronts))
      then Some (generateId env "front") else None
  | _ => None
  end.

Definition created_danger (env : Env) (s : App) (a : Action) : option jsstring :=
  match a with
  | AddDanger frontId name _ _ _ =>
      if truthy (trim name) && negb (absent (getFront s frontId))
      then Some (generateId env "danger") else None
  | _ => None
  end.

(** ** References that are still in place *)

(** The front reference an action was given on opening the dialog still
    stands for the front at its place in the document. *)
Definition held_in_place (s : App) (a : Action) : Prop :=
  match a with
  | EditCast (Some r) _ _ | EditStake (Some r) _ _ =>
      forall i, pos r = Some i ->
        exists f, fronts_or_empty s !! i = Some f
                  /\ front_id f = front_id (obj r)
  | _ => True
  end.

(** ** Sample data: the scenario of the specification *)

Module Sample.
Definition cult : Danger :=
  mkDanger (js "d1") (js "Cult of Ash") (js "Ambitious Organizations")
           (js "to spread corruption") (js "Usurpation")
           (Some []) (Some []) (Some []).
Definition king : Front :=
  mkFront (js "f1") (js "The Hollow King") (js "campaign")
          (Some []) (Some []) (Some []) [cult].
Definition doc : FrontsDocument := mkDocument (Some [king]).
Definition loaded : App := set_frontsData (Some doc) initial.
Definition server_doc : FrontsDocument := mkDocument (Some []).
(** The save is refused with status 500, the refetch succeeds. *)
Definition save_refused : Env :=
  mkEnv (Response 500 (Json None)) (Response 200 (Json (Some server_doc)))
        1700000000000 (js "k3j9x0q2a").
(** Neither the save nor the refetch gets through. *)
Definition offline : Env :=
  mkEnv (Rejected (js "Failed to fetch")) (Rejected (js "Failed to fetch"))
        1700000000000 (js "k3j9x0q2a").
(** Both requests succeed; the server answers with the document it had. *)
Definition online : Env :=
  mkEnv (Response 200 (Json None)) (Response 200 (Json (Some doc)))
        1700000000000 (js "k3j9x0q2a").
End Sample.

(** ** A fuller document: cast lines, portents and a secret *)

Module Scene.
Definition omen1 : Portent := mkPortent (js "p1") (js "Ash falls on the fields") true.
Definition omen2 : Portent := mkPortent (js "p2") (js "The bells go silent") false.
Definition lore : Secret :=
  mkSecret (js "s1") 30 (js "The cult leader is the mayor's brother.")
           false None.
Definition cult : Danger :=
  mkDanger (js "d1") (js "Cult of Ash") (js "Ambitious Organizations")
           (js "to spread corruption") (js "Usurpation")
           (Some [omen1; omen2]) (Some [lore]) (Some [Some (js "Old Mill")]).
Definition king : Front :=
  mkFront (js "f1") (js "The Hollow King") (js "campaign")
          (Some [Some (js "The Mayor"); Some (js "The Priest")])
          (Some [Some (js "Who rules the valley?")]) (Some []) [cult].
Definition doc : FrontsDocument := mkDocument (Some [king]).
Definition loaded : App := set_frontsData (Some doc) initial.
End Scene.

(** * Properties *)

Ltac unfold_run :=
  unfold result_of, app_of, trace_of, save_fetch_render, fetchFronts,
    saveFronts, await_checked, json, when, bind, try_catch, try_finally, ret,
    throw, get_app, modify, emit in *.

Ltac run := unfold_run; cbn in *.

(** ** The accessors *)

Section Accessors.

Lemma list_find_head {A} (P : A -> Prop) `{!∀ x, Decision (P x)} (l : list A) :
  snd <$> list_find P l = head (filter P l).
Proof.
  induction l as [|x l IH]; [done|].
  rewrite filter_cons. cbn. destruct (decide (P x)); [done|].
  rewrite <- IH. by destruct (list_find P l) as [[]|].
Qed.

Lemma list_find_pos {A} (P : A -> Prop) `{!∀ x, Decision (P x)} (l : list A) i x :
  list_find P l = Some (i, x) -> l !! i = Some x /\ P x.
Proof. intros Hf. apply list_find_Some in Hf. tauto. Qed.

Lemma getFront_first s frontId :
  obj <$> getFront s frontId = findFront_spec s frontId.
Proof.
  unfold getFront, findFront_spec, fronts_or_empty.
  destruct (frontsData s) as [[[fs|]]|]; try done.
  cbn. rewrite <- list_find_head.
  by destruct (list_find _ fs) as [[]|].
Qed.

Lemma head_app_or {A} (l k : list A) :
  head (l ++ k) = match head l with Some x => Some x | None => head k end.
Proof. by destruct l. Qed.

Lemma head_filter_owned (dangerId : jsstring) (f : Front) (ds : list Danger) :
  head (filter (fun p : Front * Danger => danger_id p.2 = dangerId)
               ((fun d => (f, d)) <$> ds))
  = (fun d => (f, d)) <$> head (filter (fun d => danger_id d = dangerId) ds).
Proof.
  induction ds as [|d ds IH]; [done|].
  rewrite fmap_cons, !filter_cons. cbn.
  by destruct (decide (danger_id d = dangerId)).
Qed.

Lemma getDanger_loop_first dangerId fs i :
  (fun r => (obj r.1, obj r.2)) <$> getDanger_loop dangerId i fs
  = head (filter (fun p => danger_id p.2 = dangerId) (owned fs)).
Proof.
  revert i. induction fs as [|f fs IH]; intros i; [done|].
  change (owned (f :: fs)) with (((fun d => (f, d)) <$> dangers f) ++ owned fs).
  rewrite filter_app, head_app_or, head_filter_owned, <- list_find_head.
  cbn. destruct (list_find _ (dangers f)) as [[j d]|]; [done|]. apply IH.
Qed.

Lemma getDanger_first s dangerId :
  (fun r => (obj r.1, obj r.2)) <$> getDanger s dangerId
  = findDanger_spec s dangerId.
Proof. apply getDanger_loop_first. Qed.

(** The positions returned with the objects are where the objects are. *)
Lemma getFront_pos s frontId r :
  getFront s frontId = Some r ->
  exists i, pos r = Some i /\ fronts_or_empty s !! i = Some (obj r)
            /\ front_id (obj r) = frontId.
Proof.
  unfold getFront, fronts_or_empty.
  destruct (frontsData s) as [[[fs|]]|]; try done. cbn.
  destruct (list_find _ fs) as [[i f]|] eqn:E; [|done].
  intros [= <-]. apply list_find_pos in E as [? ?]. by exists i.
Qed.

Lemma getDanger_loop_pos dangerId fs i fr dr :
  getDanger_loop dangerId i fs = Some (fr, dr) ->
  exists k j, pos fr = Some (i + k)%nat /\ pos dr = Some ((i + k)%nat, j)
    /\ fs !! k = Some (obj fr) /\ dangers (obj fr) !! j = Some (obj dr)
    /\ danger_id (obj dr) = dangerId.
Proof.
  revert i. induction fs as [|f fs IH]; intros i; [done|]. cbn.
  destruct (list_find _ (dangers f)) as [[j d]|] eqn:E.
  - intros [= <- <-]. apply list_find_pos in E as [? ?].
    exists 0%nat, j. cbn. by rewrite Nat.add_0_r.
  - intros H. apply IH in H as (k & j & H1 & H2 & H3 & H4 & H5).
    exists (S k), j. cbn. by replace (i + S k)%nat with (S i + k)%nat by lia.
Qed.

Lemma getDanger_pos s dangerId fr dr :
  getDanger s dangerId = Some (fr, dr) ->
  exists i j, pos fr = Some i /\ pos dr = Some (i, j)
    /\ fronts_or_empty s !! i = Some (obj fr)
    /\ dangers (obj fr) !! j = Some (obj dr)
    /\ danger_id (obj dr) = dangerId.
Proof.
  intros H. apply getDanger_loop_pos in H as (k & j & ?). exists k, j. done.
Qed.

End Accessors.

(** C6: [#getFront] and [#getDanger] are functions of the state and the id
    alone and always return: on a null document and on an id that nothing
    carries they return nothing; otherwise [#getFront] returns the first
    front with the id, and [#getDanger] the first danger with the id in the
    scan over all fronts' dangers, paired with the front that owns it. *)
Theorem accessors_total_first_match (s : App) (id : jsstring) :
  getFront (set_frontsData None s) id = None
  /\ getDanger (set_frontsData None s) id = None
  /\ ((forall f, f ∈ fronts_or_empty s -> front_id f ≠ id) ->
      getFront s id = None)
  /\ ((forall f d, f ∈ fronts_or_empty s -> d ∈ dangers f -> danger_id d ≠ id) ->
      getDanger s id = None)
  /\ obj <$> getFront s id = findFront_spec s id
  /\ (fun r => (obj r.1, obj r.2)) <$> getDanger s id = findDanger_spec s id
  /\ (forall fr dr, getDanger s id = Some (fr, dr) ->
        obj fr ∈ fronts_or_empty s /\ obj dr ∈ dangers (obj fr)
        /\ danger_id (obj dr) = id).
Proof.
  repeat split.
  - intros Hno. destruct (getFront s id) as [r|] eqn:E; [|done].
    apply getFront_pos in E as (i & _ & Hi & Hid).
    exfalso. eapply Hno; [|exact Hid]. by eapply list_elem_of_lookup_2.
  - intros Hno. destruct (getDanger s id) as [[fr dr]|] eqn:E; [|done].
    apply getDanger_pos in E as (i & j & _ & _ & Hi & Hj & Hid).
    exfalso. eapply Hno; [| |exact Hid]; by eapply list_elem_of_lookup_2.
  - apply getFront_first.
  - apply getDanger_first.
  - apply getDanger_pos in H as (i & j & _ & _ & Hi & _).
    by eapply list_elem_of_lookup_2.
  - apply getDanger_pos in H as (i & j & _ & _ & _ & Hj & _).
    by eapply list_elem_of_lookup_2.
  - by apply getDanger_pos in H as (i & j & _ & _ & _ & _ & Hid).
Qed.

(** The danger of the sample is found with its front; an unknown id and an
    empty state give nothing. *)
Lemma accessors_total_first_match_witness :
  (fun r => (obj r.1, obj r.2)) <$> getDanger Sample.loaded (js "d1")
  = Some (Sample.king, Sample.cult)
  /\ getDanger Sample.loaded (js "d9") = None
  /\ getFront initial (js "f1") = None.
Proof.
  destruct (accessors_total_first_match Sample.loaded (js "d1"))
    as (_ & _ & _ & _ & _ & Hd & _).
  destruct (accessors_total_first_match Sample.loaded (js "d9"))
    as (_ & _ & _ & Hno & _).
  destruct (accessors_total_first_match initial (js "f1")) as (Hnull & _).
  split; [|split].
  - rewrite Hd. reflexivity.
  - apply Hno. intros f d Hf Hd'.
    apply list_elem_of_singleton in Hf as ->.
    apply list_elem_of_singleton in Hd' as ->. discriminate.
  - exact Hnull.
Defined.

(** ** The fetch *)

Lemma fetchFronts_run reply s :
  exists s', fetchFronts reply s = (Return tt, s', [GetFronts])
    /\ loading s' = false
    /\ expandedFronts s' = expandedFronts s
    /\ expandedDangers s' = expandedDangers s
    /\ scrollPosition s' = scrollPosition s
    /\ (fails reply = true -> frontsData s' = frontsData s /\ is_Some (error s'))
    /\ (forall d, delivers reply d -> frontsData s' = Some d /\ error s' = None).
Proof.
  unfold delivers.
  destruct reply as [m | status [m | [d|]]]; run;
    try destruct (ok status) eqn:E; cbn;
    eexists; (split; [reflexivity|]); cbn;
    repeat match goal with |- _ /\ _ => split end; try done;
    try (intros _; split; eauto; fail);
    intros d' (st & Heq & Hok); simplify_eq; eauto; congruence.
Qed.

(** C10: every run of [#fetchFronts] completes normally with the loading
    flag false, whatever the reply; the error it leaves does not depend on
    the error that was there before, and after a fetch that delivered a
    document it is null. *)
Theorem fetch_ends_not_loading (reply : Reply) (s : App) :
  result_of (fetchFronts reply s) = Return tt
  /\ loading (app_of (fetchFronts reply s)) = false
  /\ (forall e, error (app_of (fetchFronts reply (set_error e s)))
                = error (app_of (fetchFronts reply s)))
  /\ (forall d, delivers reply d -> error (app_of (fetchFronts reply s)) = None).
Proof.
  destruct (fetchFronts_run reply s) as (s' & E & Hl & _ & _ & _ & _ & Hd).
  split; [by rewrite E|]. split; [by rewrite E|]. split.
  - intros e. clear.
    destruct reply as [m | status [m | [d|]]]; run;
      try destruct (ok status); reflexivity.
  - intros d Hdel. rewrite E. by apply (Hd d).
Qed.

(** A delivered document clears an error left by an earlier run. *)
Lemma fetch_ends_not_loading_witness :
  error (app_of (fetchFronts (fetchReply Sample.online)
                   (set_loading true (set_error (Some (js "old")) initial))))
  = None.
Proof.
  destruct (fetch_ends_not_loading (fetchReply Sample.online)
              (set_loading true (set_error (Some (js "old")) initial)))
    as (_ & _ & _ & Hclear).
  apply (Hclear Sample.doc). exists 200. split; reflexivity.
Defined.

(** C3, as stated, fails: a fetch refused with status 500 leaves the document
    that was in memory where it was, not null. *)
Lemma failed_fetch_keeps_document :
  fails (Response 500 (Json None)) = true
  /\ frontsData (app_of (fetchFronts (Response 500 (Json None)) Sample.loaded))
     = Some Sample.doc.
Proof. split; reflexivity. Qed.

(** C3, amended: when the fetch fails by a transport failure or a
    non-success status, the document reference is left exactly as it was
    before the call (null when it was null, as after a refresh) and an error
    message is recorded. *)
Theorem failed_fetch_leaves_document (reply : Reply) (s : App) :
  fails reply = true ->
  frontsData (app_of (fetchFronts reply s)) = frontsData s
  /\ is_Some (error (app_of (fetchFronts reply s)))
  /\ frontsData (app_of (refresh reply s)) = None.
Proof.
  intros Hf.
  destruct (fetchFronts_run reply s) as (s' & E & _ & _ & _ & _ & H & _).
  destruct (fetchFronts_run reply (set_frontsData None s))
    as (s'' & E' & _ & _ & _ & _ & H' & _).
  rewrite E. cbn. destruct (H Hf) as [-> ?]. split; [done|]. split; [done|].
  unfold refresh, bind, modify, emit. rewrite E'. cbn. by destruct (H' Hf) as [-> _].
Qed.

Lemma failed_fetch_leaves_document_witness :
  frontsData (app_of (fetchFronts (Rejected (js "Failed to fetch")) Sample.loaded))
  = frontsData Sample.loaded
  /\ is_Some (error (app_of (fetchFronts (Rejected (js "Failed to fetch"))
                               Sample.loaded)))
  /\ frontsData (app_of (refresh (Rejected (js "Failed to fetch")) Sample.loaded))
     = None.
Proof.
  apply (failed_fetch_leaves_document (Rejected (js "Failed to fetch"))
           Sample.loaded).
  reflexivity.
Defined.

(** ** Expanding and collapsing *)

Lemma toggleFront_app id s :
  app_of (toggleFront false id s)
  = set_expandedFronts
      (if bool_decide (id ∈ expandedFronts s)
       then expandedFronts s ∖ {[id]} else {[id]} ∪ expandedFronts s) s.
Proof. unfold toggleFront. run. by case_bool_decide. Qed.

Lemma toggleDanger_app id s :
  app_of (toggleDanger id s)
  = set_expandedDangers
      (if bool_decide (id ∈ expandedDangers s)
       then expandedDangers s ∖ {[id]} else {[id]} ∪ expandedDangers s) s.
Proof. unfold toggleDanger. run. by case_bool_decide. Qed.

Lemma toggle_set_flip (id : jsstring) (X : gset jsstring) :
  let X1 := if bool_decide (id ∈ X) then X ∖ {[id]} else {[id]} ∪ X in
  (id ∈ X1 <-> id ∉ X)
  /\ (forall j, j ≠ id -> (j ∈ X1 <-> j ∈ X))
  /\ (if bool_decide (id ∈ X1) then X1 ∖ {[id]} else {[id]} ∪ X1) = X.
Proof.
  cbn. destruct (decide (id ∈ X)) as [Hin|Hout].
  - rewrite (bool_decide_eq_true_2 _ Hin).
    assert (Hout : id ∉ X ∖ {[id]}).
    { rewrite elem_of_difference, elem_of_singleton. tauto. }
    rewrite (bool_decide_eq_false_2 _ Hout).
    split; [tauto|]. split.
    + intros j Hj. rewrite elem_of_difference, elem_of_singleton. tauto.
    + apply set_eq. intros j.
      rewrite elem_of_union, elem_of_difference, elem_of_singleton.
      destruct (decide (j = id)) as [->|]; tauto.
  - rewrite (bool_decide_eq_false_2 _ Hout).
    assert (Hin : id ∈ {[id]} ∪ X).
    { rewrite elem_of_union, elem_of_singleton. tauto. }
    rewrite (bool_decide_eq_true_2 _ Hin).
    split; [tauto|]. split.
    + intros j Hj. rewrite elem_of_union, elem_of_singleton. tauto.
    + apply set_eq. intros j.
      rewrite elem_of_difference, elem_of_union, elem_of_singleton.
      destruct (decide (j = id)) as [->|]; tauto.
Qed.

(** C9: one click on a front header flips the membership of that front's id
    in the set of expanded fronts and of no other id, touches nothing else
    of the state, and a second click on the same header restores the state;
    likewise for a danger and the set of expanded dangers. *)
Theorem toggle_involution (id : jsstring) (s : App) :
  let s1 := app_of (toggleFront false id s) in
  let s2 := app_of (toggleDanger id s) in
  (id ∈ expandedFronts s1 <-> id ∉ expandedFronts s)
  /\ (forall j, j ≠ id -> (j ∈ expandedFronts s1 <-> j ∈ expandedFronts s))
  /\ expandedDangers s1 = expandedDangers s
  /\ app_of (toggleFront false id s1) = s
  /\ (id ∈ expandedDangers s2 <-> id ∉ expandedDangers s)
  /\ (forall j, j ≠ id -> (j ∈ expandedDangers s2 <-> j ∈ expandedDangers s))
  /\ expandedFronts s2 = expandedFronts s
  /\ app_of (toggleDanger id s2) = s.
Proof.
  cbv zeta. rewrite !toggleFront_app, !toggleDanger_app.
  destruct s as [doc ef ed l e sp]. cbn.
  destruct (toggle_set_flip id ef) as (F1 & F2 & F3).
  destruct (toggle_set_flip id ed) as (D1 & D2 & D3).
  cbn in F1, F2, F3, D1, D2, D3.
  unfold set_expandedFronts, set_expandedDangers. cbn.
  rewrite F3, D3. tauto.
Qed.

(** ** Context preparation *)

Lemma prepareContext_run reply s :
  _prepareContext reply s
  = (Return (mkContext (view_front (after_prepare reply s)
                          <$> fronts_or_empty (after_prepare reply s))
                       (loading (after_prepare reply s))
                       (error (after_prepare reply s))),
     after_prepare reply s,
     if must_fetch s then [GetFronts] else []).
Proof.
  unfold _prepareContext, after_prepare, must_fetch, when, bind, get_app, ret,
    app_of.
  cbv beta iota zeta.
  destruct (negb (bool_decide (is_Some (frontsData s))) && negb (loading s)).
  - destruct (fetchFronts_run reply s) as (s' & E & _).
    rewrite E. reflexivity.
  - reflexivity.
Qed.

(** The fetch neither reads nor writes the sets of expanded ids. *)
Lemma after_prepare_expanded (reply : Reply) (s : App) (ef ed : gset jsstring) :
  after_prepare reply (set_expandedDangers ed (set_expandedFronts ef s))
  = set_expandedDangers ed (set_expandedFronts ef (after_prepare reply s)).
Proof.
  unfold after_prepare, must_fetch. cbn.
  destruct (negb (bool_decide (is_Some (frontsData s))) && negb (loading s));
    [|done].
  destruct reply as [m | status [m | [d|]]]; run;
    try destruct (ok status); reflexivity.
Qed.

Lemma after_prepare_sets reply s :
  expandedFronts (after_prepare reply s) = expandedFronts s
  /\ expandedDangers (after_prepare reply s) = expandedDangers s.
Proof.
  unfold after_prepare. destruct (must_fetch s); [|done].
  destruct (fetchFronts_run reply s) as (s' & E & _ & ? & ? & _).
  unfold app_of. by rewrite E.
Qed.

Lemma view_front_stale (s : App) (id : jsstring) (f : Front) :
  front_id f ≠ id ->
  view_front (set_expandedFronts ({[id]} ∪ expandedFronts s) s) f
  = view_front s f.
Proof.
  intros Hne. unfold view_front, view_danger. cbn. f_equal.
  apply bool_decide_ext. rewrite elem_of_union, elem_of_singleton. tauto.
Qed.

Lemma view_danger_stale (s : App) (id : jsstring) (f : Front) :
  (forall d, d ∈ dangers f -> danger_id d ≠ id) ->
  view_front (set_expandedDangers ({[id]} ∪ expandedDangers s) s) f
  = view_front s f.
Proof.
  intros Hne. unfold view_front. cbn. f_equal.
  apply list_fmap_ext. intros i d Hd. unfold view_danger. cbn. f_equal.
  apply bool_decide_ext. rewrite elem_of_union, elem_of_singleton.
  apply list_elem_of_lookup_2, Hne in Hd. tauto.
Qed.

(** C5: whatever the document and the two sets of expanded ids,
    [_prepareContext] returns a context.  Its fronts are the fronts of the
    document in memory after the fetch it may have made, each with its
    dangers; a front or danger is marked expanded exactly when its id is in
    the corresponding set; and an id that no front (no danger) of that
    document carries can be added to the set without changing the
    context. *)
Theorem prepareContext_tolerates_stale_ids (reply : Reply) (s : App) :
  exists ctx s' t,
    _prepareContext reply s = (Return ctx, s', t)
    /\ fv_spread <$> ctx_fronts ctx = fronts_or_empty s'
    /\ Forall (fun fv =>
         dv_spread <$> fv_dangers fv = dangers (fv_spread fv)
         /\ (fv_expanded fv = true <->
             front_id (fv_spread fv) ∈ expandedFronts s)
         /\ Forall (fun dv => dv_expanded dv = true <->
                      danger_id (dv_spread dv) ∈ expandedDangers s)
                   (fv_dangers fv))
         (ctx_fronts ctx)
    /\ (forall id,
          (forall f, f ∈ fronts_or_empty s' -> front_id f ≠ id) ->
          result_of (_prepareContext reply
                       (set_expandedFronts ({[id]} ∪ expandedFronts s) s))
          = Return ctx)
    /\ (forall id,
          (forall f d, f ∈ fronts_or_empty s' -> d ∈ dangers f ->
                       danger_id d ≠ id) ->
          result_of (_prepareContext reply
                       (set_expandedDangers ({[id]} ∪ expandedDangers s) s))
          = Return ctx).
Proof.
  rewrite prepareContext_run. do 3 eexists. split; [reflexivity|].
  destruct (after_prepare_sets reply s) as [Hef Hed].
  set (s' := after_prepare reply s) in *. cbn [ctx_fronts].
  split; [|split; [|split]].
  - rewrite <- list_fmap_compose. apply list_fmap_id.
  - apply Forall_fmap, Forall_forall. intros f _. cbn. split; [|split].
    + rewrite <- list_fmap_compose. apply list_fmap_id.
    + rewrite <- Hef. apply bool_decide_eq_true.
    + apply Forall_fmap, Forall_forall. intros d _. cbn.
      rewrite <- Hed. apply bool_decide_eq_true.
  - intros id Hstale. rewrite prepareContext_run. unfold result_of. cbn.
    pose proof (after_prepare_expanded reply s ({[id]} ∪ expandedFronts s)
                  (expandedDangers s)) as Hc.
    replace (set_expandedDangers (expandedDangers s)
               (set_expandedFronts ({[id]} ∪ expandedFronts s) s))
      with (set_expandedFronts ({[id]} ∪ expandedFronts s) s) in Hc
      by (by destruct s).
    rewrite Hc. fold s'. clear Hc. f_equal.
    replace (set_expandedDangers (expandedDangers s)
               (set_expandedFronts ({[id]} ∪ expandedFronts s) s'))
      with (set_expandedFronts ({[id]} ∪ expandedFronts s') s')
      by (rewrite Hef, <- Hed; by destruct s').
    f_equal. apply list_fmap_ext. intros i f Hf.
    apply view_front_stale, Hstale. by eapply list_elem_of_lookup_2.
  - intros id Hstale. rewrite prepareContext_run. unfold result_of. cbn.
    pose proof (after_prepare_expanded reply s (expandedFronts s)
                  ({[id]} ∪ expandedDangers s)) as Hc.
    replace (set_expandedDangers ({[id]} ∪ expandedDangers s)
               (set_expandedFronts (expandedFronts s) s))
      with (set_expandedDangers ({[id]} ∪ expandedDangers s) s) in Hc
      by (by destruct s).
    rewrite Hc. fold s'. clear Hc. f_equal.
    replace (set_expandedDangers ({[id]} ∪ expandedDangers s)
               (set_expandedFronts (expandedFronts s) s'))
      with (set_expandedDangers ({[id]} ∪ expandedDangers s') s')
      by (rewrite Hed, <- Hef; by destruct s').
    f_equal. apply list_fmap_ext. intros i f Hf.
    apply view_danger_stale. intros d Hd.
    eapply Hstale; [|exact Hd]. by eapply list_elem_of_lookup_2.
Qed.

(** An id that belongs to no front of the sample document, held in the set of
    expanded fronts, gives the context that the set without it gives. *)
Lemma prepareContext_tolerates_stale_ids_witness :
  result_of (_prepareContext (fetchReply Sample.online)
               (set_expandedFronts
                  ({[js "front-gone"]} ∪ expandedFronts Sample.loaded)
                  Sample.loaded))
  = result_of (_prepareContext (fetchReply Sample.online) Sample.loaded).
Proof.
  destruct (prepareContext_tolerates_stale_ids (fetchReply Sample.online)
              Sample.loaded) as (ctx & s' & t & E & Hfs & _ & Hstale & _).
  rewrite E. apply Hstale. intros f Hf.
  assert (Hs' : fronts_or_empty s' = [Sample.king]).
  { rewrite <- Hfs. apply (f_equal result_of) in E.
    vm_compute in E. injection E as <-. reflexivity. }
  rewrite Hs' in Hf. apply list_elem_of_singleton in Hf as ->. discriminate.
Defined.

(** ** The save and the refetch inside a handler *)

Lemma saveFronts_eq reply s :
  saveFronts reply s = (Return (saved reply s), s, save_events reply s).
Proof.
  unfold save_events, saved.
  destruct (frontsData s) as [doc|] eqn:E.
  - destruct reply as [m | status body]; run; rewrite E; cbn;
      try destruct (ok status); reflexivity.
  - run. rewrite E. reflexivity.
Qed.

Lemma save_events_run reply s doc :
  frontsData s = Some doc ->
  save_events reply s
  = PostSave (fronts doc)
      :: (if fails reply
          then [NotifyError (js "Fehler beim Speichern: "
                             ++ failure_message reply)]
          else []).
Proof.
  intros E. unfold save_events.
  destruct reply as [m | status body]; run; rewrite E; cbn;
    try destruct (ok status); reflexivity.
Qed.

Lemma save_events_null reply s :
  frontsData s = None ->
  save_events reply s
  = [NotifyError (js "Fehler beim Speichern: "
                  ++ message_of (CannotRead true "fronts"))].
Proof. intros E. unfold save_events. run. rewrite E. reflexivity. Qed.

Lemma fetchFronts_eq reply s :
  fetchFronts reply s = (Return tt, fetched reply s, [GetFronts]).
Proof.
  unfold fetched. destruct (fetchFronts_run reply s) as (s' & E & _).
  rewrite E. reflexivity.
Qed.

Lemma fetched_spec reply s :
  loading (fetched reply s) = false
  /\ expandedFronts (fetched reply s) = expandedFronts s
  /\ expandedDangers (fetched reply s) = expandedDangers s
  /\ (fails reply = true ->
      frontsData (fetched reply s) = frontsData s
      /\ is_Some (error (fetched reply s)))
  /\ (forall d, delivers reply d ->
      frontsData (fetched reply s) = Some d /\ error (fetched reply s) = None).
Proof.
  unfold fetched.
  destruct (fetchFronts_run reply s) as (s' & E & ? & ? & ? & _ & ? & ?).
  rewrite E. cbn. tauto.
Qed.

(** One step of a run: the monad operations are unfolded and the save and
    the refetch replaced by their results. *)
Ltac steps :=
  repeat first
    [ progress (cbv beta iota zeta
                  delta [bind ret throw get_app modify emit save_fetch_render
                         store_front store_danger store_portent store_secret])
    | rewrite saveFronts_eq
    | rewrite fetchFronts_eq ];
  cbn [app].

Lemma save_fetch_render_eq env s :
  save_fetch_render env s
  = (Return tt, fetched (fetchReply env) s,
     save_events (saveReply env) s ++ [GetFronts; Render]).
Proof. steps. reflexivity. Qed.

(** ** The shape of a handler run *)

Ltac split_guard :=
  match goal with
  | |- context [if truthy ?x then _ else _] => destruct (truthy x) eqn:?
  | |- context [match getFront ?s ?i with _ => _ end] =>
      destruct (getFront s i) as [[[?|] ?]|] eqn:?
  | |- context [match getDanger ?s ?i with _ => _ end] =>
      destruct (getDanger s i) as [[? [[[? ?]|] ?]]|] eqn:?
  | |- context [match frontsData ?s with _ => _ end] =>
      destruct (frontsData s) as [[[?|]]|] eqn:?
  | |- context [match cast ?f with _ => _ end] => destruct (cast f) eqn:?
  | |- context [match stakes ?f with _ => _ end] => destruct (stakes f) eqn:?
  | |- context [match locations ?f with _ => _ end] =>
      destruct (locations f) eqn:?
  | |- context [match grimPortents ?f with _ => _ end] =>
      destruct (grimPortents f) eqn:?
  | |- context [match secrets ?f with _ => _ end] => destruct (secrets f) eqn:?
  | |- context [pos ?r] => is_var r; destruct r as [[?|] ?]
  | |- context [match ?x with _ => _ end] => is_var x; destruct x
  | |- context [if ?x then _ else _] => is_var x; destruct x
  end.

Ltac unfold_handlers :=
  cbn [handle];
  unfold showAddFrontDialog, showAddDangerDialog, showEditDangerDialog,
    showAddSecretDialog, showEditSecretDialog, editFrontName, addCast,
    editCast, deleteCast, addStake, editStake, deleteStake, deleteDanger,
    editImpulse, editDoom, addPortent, editPortent, deletePortent,
    deleteSecret, addLocation, editLocation, deleteLocation,
    showEditTextDialog.

Ltac crank := repeat (steps; cbn [pos obj fronts]; try split_guard).

(** A handler run is one of three: it leaves the state alone and shows at
    most the text dialog's notice; it throws before doing anything (creating
    a front without a document); or it saves some state [sm], refetches,
    asks for a render and ends with information notices only. *)
Lemma handle_shape env a s :
  (exists t, handle env a s = (Return tt, s, t)
             /\ (t = [] \/ t = [NotifyInfo (js "Gespeichert")]))
  \/ (exists e, handle env a s = (Throw e, s, []))
  \/ (exists sm s' post,
        handle env a s
        = (Return tt, s',
           save_events (saveReply env) sm ++ GetFronts :: Render :: post)
        /\ frontsData s' = frontsData (fetched (fetchReply env) sm)
        /\ error s' = error (fetched (fetchReply env) sm)
        /\ loading s' = loading (fetched (fetchReply env) sm)
        /\ forallb is_info post = true).
Proof.
  destruct a; unfold_handlers; crank; rewrite <- ?app_assoc; cbn [app].
  all: try (left; eexists; split; [reflexivity|tauto]).
  all: try (right; left; eexists; reflexivity).
  all: try (right; right; do 3 eexists; split; [reflexivity|];
            repeat split; reflexivity).
Qed.

Lemma info_is_no_save post body :
  forallb is_info post = true -> PostSave body ∉ post.
Proof.
  intros Hall Hin. apply list_elem_of_In in Hin.
  rewrite forallb_forall in Hall. by apply Hall in Hin.
Qed.

(** ** Failure of the save *)

(** C1, as stated, fails: adding a cast line while the server refuses the
    save with status 500 shows the error notification, and then the document
    is fetched again, the view is rendered again, and the document delivered
    by the fetch replaces the one that held the new line. *)
Lemma failed_save_refetches_and_renders :
  fails (saveReply Sample.save_refused) = true
  /\ trace_of (handle Sample.save_refused (AddCast (js "f1") (js "Mayor"))
                      Sample.loaded)
     = [PostSave (Some [set_cast (Some [Some (js "Mayor")]) Sample.king]);
        NotifyError (js "Fehler beim Speichern: Server error: 500");
        GetFronts; Render; NotifyInfo (js "Gespeichert")]
  /\ frontsData (app_of (handle Sample.save_refused
                           (AddCast (js "f1") (js "Mayor")) Sample.loaded))
     = Some Sample.server_doc.
Proof. vm_compute. repeat split. Qed.

(** C1, amended: for every mutating action whose save request fails, the
    error notification is shown, and the document is still fetched again
    and the view rendered again; nothing but information notices follows.
    The document in memory afterwards is the one the refetch delivered; the
    mutated document that was sent stays in memory only when the refetch
    fails as well. *)
Theorem failed_save_is_reported_then_refetched
  (env : Env) (a : Action) (s : App) (body : option (list Front)) :
  fails (saveReply env) = true ->
  PostSave body ∈ trace_of (handle env a s) ->
  result_of (handle env a s) = Return tt
  /\ (exists post,
        trace_of (handle env a s)
        = PostSave body
            :: NotifyError (js "Fehler beim Speichern: "
                            ++ failure_message (saveReply env))
            :: GetFronts :: Render :: post
        /\ forallb is_info post = true)
  /\ (forall d, delivers (fetchReply env) d ->
        frontsData (app_of (handle env a s)) = Some d)
  /\ (fails (fetchReply env) = true ->
        frontsData (app_of (handle env a s)) = Some (mkDocument body)).
Proof.
  intros Hfail Hin.
  destruct (handle_shape env a s)
    as [(t & E & Ht) | [(e & E) | (sm & s' & post & E & Hdoc & _ & _ & Hpost)]];
    rewrite E in *; cbn in Hin |- *.
  - destruct Ht as [-> | ->]; [by apply elem_of_nil in Hin|].
    apply list_elem_of_singleton in Hin. discriminate.
  - by apply elem_of_nil in Hin.
  - destruct (fetched_spec (fetchReply env) sm) as (_ & _ & _ & Hkeep & Hnew).
    destruct (frontsData sm) as [doc|] eqn:Edoc.
    + rewrite (save_events_run _ _ _ Edoc), Hfail in *. cbn in Hin |- *.
      assert (body = fronts doc) as ->.
      { apply elem_of_cons in Hin as [[= ->] | Hin]; [done|].
        apply elem_of_cons in Hin as [[=] | Hin].
        apply elem_of_cons in Hin as [[=] | Hin].
        apply elem_of_cons in Hin as [[=] | Hin].
        by apply info_is_no_save in Hin. }
      split; [done|]. split; [by exists post|]. split.
      * intros d Hd. rewrite Hdoc. by apply (Hnew d).
      * intros Hf. rewrite Hdoc. destruct (Hkeep Hf) as [-> _]. by destruct doc.
    + rewrite (save_events_null _ _ Edoc) in Hin. cbn in Hin. exfalso.
      apply elem_of_cons in Hin as [[=] | Hin].
      apply elem_of_cons in Hin as [[=] | Hin].
      apply elem_of_cons in Hin as [[=] | Hin].
      by apply info_is_no_save in Hin.
Qed.

(** The save is refused and the refetch delivers the server's document; the
    network is down and the document with the new line stays. *)
Lemma failed_save_is_reported_then_refetched_witness :
  frontsData (app_of (handle Sample.save_refused
                        (AddCast (js "f1") (js "Mayor")) Sample.loaded))
  = Some Sample.server_doc
  /\ frontsData (app_of (handle Sample.offline
                           (AddCast (js "f1") (js "Mayor")) Sample.loaded))
     = Some (mkDocument
               (Some [set_cast (Some [Some (js "Mayor")]) Sample.king])).
Proof.
  split.
  - apply (failed_save_is_reported_then_refetched Sample.save_refused
             (AddCast (js "f1") (js "Mayor")) Sample.loaded
             (Some [set_cast (Some [Some (js "Mayor")]) Sample.king])).
    + reflexivity.
    + vm_compute. apply list_elem_of_here.
    + exists 200. split; reflexivity.
  - apply (failed_save_is_reported_then_refetched Sample.offline
             (AddCast (js "f1") (js "Mayor")) Sample.loaded
             (Some [set_cast (Some [Some (js "Mayor")]) Sample.king])).
    + reflexivity.
    + vm_compute. apply list_elem_of_here.
    + reflexivity.
Defined.

(** ** Targets that are gone *)

(** C8, as stated, fails.  Deleting a danger whose id no danger of the
    document carries, from a front that is there: the handler looks up the
    front only, and the save, the refetch and the render follow.  Submitting
    the cast dialog with the front it found when it was opened, after the
    document has gone: the handler does not look the front up again, the
    save fails on the missing document, and an error notice is shown. *)
Lemma unlooked_target_is_not_abandoned :
  getDanger Sample.loaded (js "d9") = None
  /\ trace_of (handle Sample.online (DeleteDanger (js "f1") (js "d9") true)
                      Sample.loaded)
     = [PostSave (Some [Sample.king]); GetFronts; Render]
  /\ getFront initial (js "f1") = None
  /\ trace_of (handle Sample.offline
                 (EditCast (Some (Ref None Sample.king)) 0%nat
                           (js "The Regent"))
                 initial)
     = [NotifyError (js "Fehler beim Speichern: "
                     ++ message_of (CannotRead true "fronts"));
        GetFronts; Render; NotifyInfo (js "Gespeichert")].
Proof. vm_compute. repeat split. Qed.

(** C8, amended: when the lookup that the handler of an action makes for
    its target comes back empty (its call of [#getFront] or [#getDanger],
    or, where the handler looks up on opening the dialog, the front, danger,
    portent or secret it found then), the handler completes normally and
    leaves the state as it was; it sends no save and no fetch, asks for no
    rendering and shows no error.  (A handler that goes through the text
    dialog still shows its information notice.) *)
Theorem unresolved_target_is_abandoned (env : Env) (a : Action) (s : App) :
  target_absent s a = true ->
  result_of (handle env a s) = Return tt
  /\ app_of (handle env a s) = s
  /\ (trace_of (handle env a s) = []
      \/ trace_of (handle env a s) = [NotifyInfo (js "Gespeichert")])
  /\ (forall e, e ∈ trace_of (handle env a s) ->
        is_save e = false /\ is_fetch e = false /\ is_render e = false
        /\ is_error_notice e = false).
Proof.
  intros Habs.
  assert (Hrun : handle env a s = (Return tt, s, [])
                 \/ handle env a s = (Return tt, s, [NotifyInfo (js "Gespeichert")])).
  { revert Habs. destruct a; cbn [target_absent]; unfold_handlers; crank;
      cbn [absent]; intros; try discriminate; auto. }
  destruct Hrun as [-> | ->]; cbn.
  - split; [done|]. split; [done|]. split; [by left|].
    intros e He. by apply elem_of_nil in He.
  - split; [done|]. split; [done|]. split; [by right|].
    intros e He. by apply list_elem_of_singleton in He as ->.
Qed.

(** Adding a location to a danger that is not in the document, and editing
    the name of a front that is not there. *)
Lemma unresolved_target_is_abandoned_witness :
  app_of (handle Sample.online (AddLocation (js "d9") (js "Old Mill"))
                 Sample.loaded) = Sample.loaded
  /\ app_of (handle Sample.online (EditFrontName (js "f9") (js "New name"))
                    Sample.loaded) = Sample.loaded.
Proof.
  split.
  - apply (unresolved_target_is_abandoned Sample.online
             (AddLocation (js "d9") (js "Old Mill")) Sample.loaded).
    reflexivity.
  - apply (unresolved_target_is_abandoned Sample.online
             (EditFrontName (js "f9") (js "New name")) Sample.loaded).
    reflexivity.
Defined.

(** ** Deleting a danger *)

Lemma getFront_document s frontId front :
  getFront s frontId = Some front ->
  exists i fs, pos front = Some i
    /\ frontsData s = Some (mkDocument (Some fs))
    /\ fs !! i = Some (obj front).
Proof.
  intros H. destruct (getFront_pos _ _ _ H) as (i & Hi & Hl & _).
  unfold getFront, fronts_or_empty in *.
  destruct (frontsData s) as [[[fs|]]|]; try done. by exists i, fs.
Qed.

(** C4: when the confirmation is declined the handler does nothing at all:
    the state, and with it the document, is as before and no request is
    sent.  When it is given and the front is found, the document that is
    saved has, at the front's place, the front without the dangers that
    carry the id; every other danger of the front is kept. *)
Theorem delete_danger_needs_confirmation
  (env : Env) (s : App) (frontId dangerId : jsstring) :
  handle env (DeleteDanger frontId dangerId false) s = (Return tt, s, [])
  /\ (forall front, getFront s frontId = Some front ->
      exists i fs post,
        frontsData s = Some (mkDocument (Some fs))
        /\ fs !! i = Some (obj front)
        /\ trace_of (handle env (DeleteDanger frontId dangerId true) s)
           = PostSave
               (Some (<[i := set_dangers
                              (filter (fun d => danger_id d ≠ dangerId)
                                      (dangers (obj front)))
                              (obj front)]> fs))
               :: post
        /\ (forall d,
              d ∈ filter (fun d => danger_id d ≠ dangerId) (dangers (obj front))
              <-> d ∈ dangers (obj front) /\ danger_id d ≠ dangerId)).
Proof.
  split; [reflexivity|].
  intros front Hfront.
  destruct (getFront_document _ _ _ Hfront) as (i & fs & Hpos & Hdoc & Hi).
  exists i, fs. unfold_handlers. steps. rewrite Hfront. destruct front as [p f].
  cbn [pos obj] in *. subst p. steps.
  erewrite save_events_run
    by (unfold alter_fronts; rewrite Hdoc; reflexivity).
  unfold trace_of. cbn [snd app fronts fmap option_fmap option_map]. eexists. split; [done|]. split; [done|]. split; [reflexivity|].
  intros d. rewrite list_elem_of_filter. tauto.
Qed.

(** Deleting the cult from the sample front, confirmed: the front is saved
    without dangers. *)
Lemma delete_danger_needs_confirmation_witness :
  exists i fs post,
    frontsData Sample.loaded = Some (mkDocument (Some fs))
    /\ fs !! i = Some Sample.king
    /\ trace_of (handle Sample.online (DeleteDanger (js "f1") (js "d1") true)
                        Sample.loaded)
       = PostSave
           (Some (<[i := set_dangers
                          (filter (fun d => danger_id d ≠ js "d1")
                                  (dangers Sample.king))
                          Sample.king]> fs))
           :: post
    /\ (forall d,
          d ∈ filter (fun d => danger_id d ≠ js "d1") (dangers Sample.king)
          <-> d ∈ dangers Sample.king /\ danger_id d ≠ js "d1").
Proof.
  destruct (delete_danger_needs_confirmation Sample.online Sample.loaded
              (js "f1") (js "d1")) as [_ Hyes].
  apply (Hyes (Ref (Some 0%nat) Sample.king)). reflexivity.
Defined.

(** ** Creating entities *)

Lemma list_alter_at {A} (g : A -> A) (l : list A) (i : nat) (x : A) :
  l !! i = Some x -> alter g i l = <[i := g x]> l.
Proof.
  intros Hx. apply list_eq. intros j. destruct (decide (i = j)) as [<-|Hne].
  - rewrite list_lookup_alter_eq, Hx. cbn.
    symmetry. apply list_lookup_insert_eq. by eapply lookup_lt_Some.
  - by rewrite list_lookup_alter_ne, list_lookup_insert_ne.
Qed.

Lemma getDanger_document s dangerId fr dr :
  getDanger s dangerId = Some (fr, dr) ->
  exists i j fs, pos dr = Some (i, j)
    /\ frontsData s = Some (mkDocument (Some fs))
    /\ fs !! i = Some (obj fr)
    /\ dangers (obj fr) !! j = Some (obj dr).
Proof.
  intros H. destruct (getDanger_pos _ _ _ _ H) as (i & j & _ & Hp & Hi & Hj & _).
  unfold fronts_or_empty in Hi.
  destruct (frontsData s) as [[[fs|]]|]; try done. by exists i, j, fs.
Qed.

(** C7, as stated, fails: a danger created with the type field left blank
    does not carry the submitted (empty) type but the default. *)
Lemma blank_danger_type_gets_default :
  trace_of (handle Sample.online
              (AddDanger (js "f1") (js "Cult of Ash") []
                         (js "to spread corruption") (js "Usurpation"))
              (set_frontsData
                 (Some (mkDocument (Some [set_dangers [] Sample.king])))
                 initial))
  = [PostSave
       (Some [set_dangers
                [mkDanger (js "danger-1700000000000-k3j9x0q2a")
                          (js "Cult of Ash") (js "Unknown")
                          (js "to spread corruption") (js "Usurpation")
                          (Some []) (Some []) (Some [])]
                Sample.king]);
     GetFronts; Render;
     NotifyInfo (js "Danger " ++ quoted (js "Cult of Ash") ++ js " erstellt")]
  /\ js "Unknown" ≠ [].
Proof. split; [vm_compute; reflexivity | discriminate]. Qed.

(** C7, amended: a created front is saved at the end of the fronts with the
    generated id, the trimmed name, the chosen type and empty cast, stakes,
    player hooks and dangers.  A created danger is saved at the end of its
    front's dangers with the generated id, the trimmed name, and the trimmed
    type, impulse and doom, each replaced by its default ("Unknown", "to
    cause chaos", "Destruction") when blank, and with empty portents,
    secrets and locations.  A created secret is saved at the end of its
    danger's secrets with the generated id, the chosen xp, the trimmed text,
    not revealed and without a reveal time.  A blank name (text) creates
    nothing. *)
Theorem creation_defaults (env : Env) (s : App) :
  (forall name type fs,
     truthy (trim name) = true ->
     frontsData s = Some (mkDocument (Some fs)) ->
     exists post,
       trace_of (handle env (AddFront name type) s)
       = PostSave
           (Some (fs ++ [mkFront (generateId env "front") (trim name) type
                                 (Some []) (Some []) (Some []) []]))
           :: post)
  /\ (forall frontId name dangerType impulse doom front,
        truthy (trim name) = true ->
        getFront s frontId = Some front ->
        exists i fs post,
          frontsData s = Some (mkDocument (Some fs))
          /\ fs !! i = Some (obj front)
          /\ trace_of (handle env
                         (AddDanger frontId name dangerType impulse doom) s)
             = PostSave
                 (Some (<[i := set_dangers
                                (dangers (obj front)
                                 ++ [mkDanger (generateId env "danger")
                                       (trim name)
                                       (or_else (trim dangerType) (js "Unknown"))
                                       (or_else (trim impulse)
                                                (js "to cause chaos"))
                                       (or_else (trim doom) (js "Destruction"))
                                       (Some []) (Some []) (Some [])])
                                (obj front)]> fs))
                 :: post)
  /\ (forall dangerId xp text fr dr,
        truthy (trim text) = true ->
        getDanger s dangerId = Some (fr, dr) ->
        exists i j fs post,
          frontsData s = Some (mkDocument (Some fs))
          /\ fs !! i = Some (obj fr)
          /\ dangers (obj fr) !! j = Some (obj dr)
          /\ trace_of (handle env (AddSecret dangerId xp text) s)
             = PostSave
                 (Some (<[i := set_dangers
                                (<[j := set_secrets
                                          (Some (default [] (secrets (obj dr))
                                                 ++ [mkSecret
                                                       (generateId env "secret")
                                                       (xp_value xp) (trim text)
                                                       false None]))
                                          (obj dr)]> (dangers (obj fr)))
                                (obj fr)]> fs))
                 :: post)
  /\ (forall name type frontId dangerType impulse doom dangerId xp,
        truthy (trim name) = false ->
        handle env (AddFront name type) s = (Return tt, s, [])
        /\ handle env (AddDanger frontId name dangerType impulse doom) s
           = (Return tt, s, [])
        /\ handle env (AddSecret dangerId xp name) s = (Return tt, s, [])).
Proof.
  split; [|split; [|split]].
  - intros name type fs Hname Hdoc. unfold_handlers. rewrite Hname. steps.
    rewrite Hdoc. cbn [fronts]. steps.
    erewrite save_events_run
      by (unfold alter_fronts; rewrite Hdoc; reflexivity).
    unfold trace_of. cbn [snd app fronts fmap option_fmap option_map].
    by eexists.
  - intros frontId name dangerType impulse doom front Hname Hfront.
    destruct (getFront_document _ _ _ Hfront) as (i & fs & Hpos & Hdoc & Hi).
    exists i, fs. unfold_handlers. rewrite Hname. steps. rewrite Hfront.
    destruct front as [p f]. cbn [pos obj] in *. subst p. steps.
    erewrite save_events_run
      by (unfold alter_fronts; rewrite Hdoc; reflexivity).
    unfold trace_of. cbn [snd app fronts fmap option_fmap option_map].
    by eexists.
  - intros dangerId xp text fr dr Htext Hdanger.
    destruct (getDanger_document _ _ _ _ Hdanger)
      as (i & j & fs & Hpos & Hdoc & Hi & Hj).
    exists i, j, fs. unfold_handlers. rewrite Htext. steps. rewrite Hdanger.
    destruct dr as [p d]. cbn [pos obj] in *. subst p. steps.
    erewrite save_events_run
      by (unfold alter_danger, alter_fronts; rewrite Hdoc; reflexivity).
    unfold trace_of. cbn [snd app fronts fmap option_fmap option_map].
    rewrite (list_alter_at _ _ _ _ Hi), (list_alter_at _ _ _ _ Hj).
    by eexists.
  - intros name type frontId dangerType impulse doom dangerId xp Hname.
    unfold_handlers. by rewrite Hname.
Qed.

(** The three creations of the scenario, each on the sample document. *)
Lemma creation_defaults_witness :
  (exists post,
     trace_of (handle Sample.online
                 (AddFront (js " The Hollow King ") (js "campaign"))
                 Sample.loaded)
     = PostSave
         (Some ([Sample.king]
                ++ [mkFront (generateId Sample.online "front")
                            (trim (js " The Hollow King ")) (js "campaign")
                            (Some []) (Some []) (Some []) []]))
         :: post)
  /\ (exists i fs post,
        frontsData Sample.loaded = Some (mkDocument (Some fs))
        /\ fs !! i = Some Sample.king
        /\ trace_of (handle Sample.online
                       (AddDanger (js "f1") (js "Ash Wraiths") [] [] [])
                       Sample.loaded)
           = PostSave
               (Some (<[i := set_dangers
                              (dangers Sample.king
                               ++ [mkDanger (generateId Sample.online "danger")
                                     (trim (js "Ash Wraiths"))
                                     (or_else (trim []) (js "Unknown"))
                                     (or_else (trim []) (js "to cause chaos"))
                                     (or_else (trim []) (js "Destruction"))
                                     (Some []) (Some []) (Some [])])
                              Sample.king]> fs))
               :: post)
  /\ (exists i j fs post,
        frontsData Sample.loaded = Some (mkDocument (Some fs))
        /\ fs !! i = Some Sample.king
        /\ dangers Sample.king !! j = Some Sample.cult
        /\ trace_of (handle Sample.online
                       (AddSecret (js "d1") Xp30
                          (js "The cult leader is the mayor's brother."))
                       Sample.loaded)
           = PostSave
               (Some (<[i := set_dangers
                              (<[j := set_secrets
                                        (Some (default [] (secrets Sample.cult)
                                               ++ [mkSecret
                                                     (generateId Sample.online
                                                                 "secret")
                                                     (xp_value Xp30)
                                                     (trim (js "The cult leader is the mayor's brother."))
                                                     false None]))
                                        Sample.cult]> (dangers Sample.king))
                              Sample.king]> fs))
               :: post).
Proof.
  destruct (creation_defaults Sample.online Sample.loaded)
    as (Hfront & Hdanger & Hsecret & _).
  split; [|split].
  - apply (Hfront (js " The Hollow King ") (js "campaign") [Sample.king]);
      reflexivity.
  - apply (Hdanger (js "f1") (js "Ash Wraiths") [] [] []
             (Ref (Some 0%nat) Sample.king)); reflexivity.
  - apply (Hsecret (js "d1") Xp30
             (js "The cult leader is the mayor's brother.")
             (Ref (Some 0%nat) Sample.king)
             (Ref (Some (0%nat, 0%nat)) Sample.cult)); reflexivity.
Defined.

(** ** Blank input *)

(** The text dialog rejects a value that is blank after trimming: its
    callback is not run and nothing is shown. *)
Lemma text_dialog_rejects_blank raw onSave s :
  trim raw = [] -> showEditTextDialog raw onSave s = (Return tt, s, []).
Proof. intros H. unfold showEditTextDialog. by rewrite H. Qed.

(** C2 at the failing input: the danger dialog submitted with a name of
    three spaces stores the empty name and sends the save. *)
Theorem edit_danger_accepts_blank_name :
  trim (js "   ") = []
  /\ trace_of (handle Sample.online
                 (EditDanger (getDanger Sample.loaded (js "d1")) (js "   ")
                    (js "Ambitious Organizations")
                    (js "to spread corruption") (js "Usurpation"))
                 Sample.loaded)
     = [PostSave
          (Some [set_dangers [set_danger_name [] Sample.cult] Sample.king]);
        GetFronts; Render; NotifyInfo (js "Danger aktualisiert")].
Proof. split; vm_compute; reflexivity. Qed.

(** * Further properties of the code *)

(** ** The toggles *)

Ltac run_toggle :=
  unfold toggleSecret, togglePortent, toggleSecret_answered,
    togglePortent_answered, await_checked_of, json_of, try_catch, bind, ret,
    throw, emit;
  cbv beta iota zeta.

(** X1: a secret toggle whose request gets no parsed answer (transport
    failure, status that is no success, body that does not parse) shows one
    error notice and nothing else: no refetch, no render, and the state is
    as before. *)
Theorem failed_secret_toggle_changes_nothing
  (dangerId secretId : jsstring) (post : ReplyOf (option SecretResult))
  (fetchReply : Reply) (s : App) :
  answer_of post = None ->
  toggleSecret dangerId secretId post fetchReply s
  = (Return tt, s,
     [ToggleRequest "/api/fronts/secret/toggle" dangerId secretId;
      Then (NotifyError (js "Fehler: " ++ failure_of post))]).
Proof.
  destruct post as [m | status body]; cbn [answer_of failure_of]; run_toggle.
  - reflexivity.
  - destruct (ok status), body as [m | v]; cbn [negb];
      intros; try discriminate; reflexivity.
Qed.

Lemma failed_secret_toggle_changes_nothing_witness :
  toggleSecret (js "d1") (js "s1") (ResponseOf 404 (JsonOf None))
               (fetchReply Sample.online) Sample.loaded
  = (Return tt, Sample.loaded,
     [ToggleRequest "/api/fronts/secret/toggle" (js "d1") (js "s1");
      Then (NotifyError (js "Fehler: "
                         ++ failure_of (ResponseOf 404
                                          (JsonOf (None : option SecretResult)))))]).
Proof.
  apply (failed_secret_toggle_changes_nothing (js "d1") (js "s1")
           (ResponseOf 404 (JsonOf None)) (fetchReply Sample.online)
           Sample.loaded).
  reflexivity.
Defined.

(** X2: when the secret toggle is answered with a secret, the state
    afterwards is exactly what the refetch leaves (the client flips nothing
    itself), the view is rendered once, and the notice that follows is
    chosen by the [revealed] flag of the answered secret alone, with at most
    the first fifty code units of its text. *)
Theorem secret_toggle_notice_follows_answer
  (dangerId secretId : jsstring) (post : ReplyOf (option SecretResult))
  (fetchReply : Reply) (s : App) (x : Secret) :
  answer_of post = Some (Some (mkSecretResult (Some x))) ->
  toggleSecret dangerId secretId post fetchReply s
  = (Return tt, fetched fetchReply s,
     [ToggleRequest "/api/fronts/secret/toggle" dangerId secretId;
      Then GetFronts; Then Render;
      Then (NotifyInfo
              (if revealed x
               then js "Secret gel" ++ [252] ++ js "ftet: "
                    ++ take 50 (secret_text x) ++ js "..."
               else js "Secret zur" ++ [252] ++ js "ckgesetzt"))]).
Proof.
  destruct post as [m | status [m | v]]; cbn [answer_of]; try discriminate.
  destruct (ok status) eqn:Hok; [|discriminate]. intros [= ->].
  run_toggle. rewrite Hok. cbn [negb]. cbv beta iota zeta.
  rewrite fetchFronts_eq. cbn [result_secret app fmap list_fmap].
  unfold substring0. by destruct (revealed x).
Qed.

Lemma secret_toggle_notice_follows_answer_witness :
  toggleSecret (js "d1") (js "s1")
    (ResponseOf 200
       (JsonOf (Some (mkSecretResult
                        (Some (mkSecret (js "s1") 30 (js "The mayor")
                                        true (Some (js "2026-01-01"))))))))
    (fetchReply Sample.online) Sample.loaded
  = (Return tt, fetched (fetchReply Sample.online) Sample.loaded,
     [ToggleRequest "/api/fronts/secret/toggle" (js "d1") (js "s1");
      Then GetFronts; Then Render;
      Then (NotifyInfo (js "Secret gel" ++ [252] ++ js "ftet: "
                        ++ take 50 (js "The mayor") ++ js "..."))]).
Proof.
  apply (secret_toggle_notice_follows_answer (js "d1") (js "s1") _
           (fetchReply Sample.online) Sample.loaded
           (mkSecret (js "s1") 30 (js "The mayor") true (Some (js "2026-01-01")))).
  reflexivity.
Defined.

(** X3: when the secret toggle is answered with [null] or with an object
    that has no secret, the document is still fetched again and the view
    rendered; reading the missing secret then fails inside the [try], and
    an error notice is shown instead of the information notice. *)
Theorem secret_toggle_without_secret_reports_error
  (dangerId secretId : jsstring) (post : ReplyOf (option SecretResult))
  (fetchReply : Reply) (s : App) (result : option SecretResult) :
  answer_of post = Some result ->
  result ≫= result_secret = None ->
  toggleSecret dangerId secretId post fetchReply s
  = (Return tt, fetched fetchReply s,
     [ToggleRequest "/api/fronts/secret/toggle" dangerId secretId;
      Then GetFronts; Then Render;
      Then (NotifyError
              (js "Fehler: "
               ++ message_of (match result with
                              | None => CannotRead true "secret"
                              | Some _ => CannotRead false "revealed"
                              end)))]).
Proof.
  destruct post as [m | status [m | v]]; cbn [answer_of]; try discriminate.
  destruct (ok status) eqn:Hok; [|discriminate]. intros [= ->] Hnone.
  run_toggle. rewrite Hok. cbn [negb]. cbv beta iota zeta.
  rewrite fetchFronts_eq.
  destruct result as [[[x|]]|]; [discriminate| |]; reflexivity.
Qed.

Lemma secret_toggle_without_secret_reports_error_witness :
  toggleSecret (js "d1") (js "s1")
               (ResponseOf 200 (JsonOf (Some (mkSecretResult None))))
               (fetchReply Sample.online) Sample.loaded
  = (Return tt, fetched (fetchReply Sample.online) Sample.loaded,
     [ToggleRequest "/api/fronts/secret/toggle" (js "d1") (js "s1");
      Then GetFronts; Then Render;
      Then (NotifyError
              (js "Fehler: " ++ message_of (CannotRead false "revealed")))]).
Proof.
  apply (secret_toggle_without_secret_reports_error (js "d1") (js "s1")
           (ResponseOf 200 (JsonOf (Some (mkSecretResult None))))
           (fetchReply Sample.online) Sample.loaded
           (Some (mkSecretResult None))); reflexivity.
Defined.

(** X4: a portent toggle either gets no parsed answer, and then shows one
    error notice and leaves the state alone, or it refetches and renders
    once and shows nothing; the state is then what the refetch leaves. *)
Theorem portent_toggle_outcomes
  (dangerId portentId : jsstring) (post : ReplyOf unit)
  (fetchReply : Reply) (s : App) :
  togglePortent dangerId portentId post fetchReply s
  = match answer_of post with
    | None =>
        (Return tt, s,
         [ToggleRequest "/api/fronts/portent/toggle" dangerId portentId;
          Then (NotifyError (js "Fehler: " ++ failure_of post))])
    | Some _ =>
        (Return tt, fetched fetchReply s,
         [ToggleRequest "/api/fronts/portent/toggle" dangerId portentId;
          Then GetFronts; Then Render])
    end.
Proof.
  destruct post as [m | status body]; cbn [answer_of failure_of]; run_toggle.
  - reflexivity.
  - destruct (ok status), body as [m | v]; cbn [negb]; cbv beta iota zeta;
      rewrite ?fetchFronts_eq; reflexivity.
Qed.

(** ** Loading the document *)

(** X5: a fetch answered with a success status and the body [null] stores
    the [null], fails on reading it for the log line, and so ends with no
    document in memory, whatever was there before, and with the error of
    that read recorded. *)
Theorem fetch_null_body_clears_document (status : N) (s : App) :
  ok status = true ->
  fetchFronts (Response status (Json None)) s
  = (Return tt,
     set_loading false
       (set_error
          (Some (js "Verbindung zum Server fehlgeschlagen: "
                 ++ message_of (CannotRead true "fronts")))
          (set_frontsData None (set_error None (set_loading true s)))),
     [GetFronts])
  /\ frontsData (app_of (fetchFronts (Response status (Json None)) s)) = None.
Proof. intros Hok. run. rewrite Hok. by cbn. Qed.

Lemma fetch_null_body_clears_document_witness :
  frontsData Sample.loaded = Some Sample.doc
  /\ frontsData (app_of (fetchFronts (Response 200 (Json None)) Sample.loaded))
     = None.
Proof.
  split; [reflexivity|].
  apply (fetch_null_body_clears_document 200 Sample.loaded). reflexivity.
Defined.

Lemma delivers_or_not reply :
  (exists d, delivers reply d) \/ (forall d, ~ delivers reply d).
Proof.
  destruct reply as [m | status [m | [d|]]];
    try (right; intros d' (st & [=] & _); fail).
  destruct (ok status) eqn:Hok.
  - left. exists d. by exists status.
  - right. intros d' (st & [= <- _] & Hok'). congruence.
Qed.

Lemma not_delivered_no_document reply s :
  (forall d, ~ delivers reply d) ->
  frontsData (fetched reply (set_frontsData None s)) = None
  /\ is_Some (error (fetched reply (set_frontsData None s))).
Proof.
  intros Hno. unfold fetched.
  destruct reply as [m | status [m | [d|]]]; run;
    try destruct (ok status) eqn:Hok; cbn; try (split; eauto; fail).
  exfalso. apply (Hno d). by exists status.
Qed.

(** X6: a refresh never leaves the old document in memory.  It sends one
    fetch and asks for one render; afterwards either the reply delivered a
    document, which is now the document and no error is set, or there is no
    document at all and an error is set.  The loading flag is off and the
    sets of expanded ids and the scroll position are as before. *)
Theorem refresh_replaces_or_drops_document (reply : Reply) (s : App) :
  result_of (refresh reply s) = Return tt
  /\ trace_of (refresh reply s) = [GetFronts; Render]
  /\ ((exists d, delivers reply d
                 /\ frontsData (app_of (refresh reply s)) = Some d
                 /\ error (app_of (refresh reply s)) = None)
      \/ (frontsData (app_of (refresh reply s)) = None
          /\ is_Some (error (app_of (refresh reply s)))))
  /\ loading (app_of (refresh reply s)) = false
  /\ expandedFronts (app_of (refresh reply s)) = expandedFronts s
  /\ expandedDangers (app_of (refresh reply s)) = expandedDangers s
  /\ scrollPosition (app_of (refresh reply s)) = scrollPosition s.
Proof.
  assert (E : refresh reply s
              = (Return tt, fetched reply (set_frontsData None s),
                 [GetFronts; Render])).
  { unfold refresh. steps. reflexivity. }
  rewrite E. unfold result_of, app_of, trace_of. cbn [fst snd].
  destruct (fetchFronts_run reply (set_frontsData None s))
    as (s' & E' & Hl & Hef & Hed & Hsp & _ & Hd).
  assert (Hs' : fetched reply (set_frontsData None s) = s').
  { unfold fetched, app_of. by rewrite E'. }
  split; [done|]. split; [done|]. split; [|by rewrite Hs'].
  destruct (delivers_or_not reply) as [[d Hdel] | Hno].
  - left. exists d. split; [done|]. rewrite Hs'. by apply (Hd d).
  - right. by apply not_delivered_no_document.
Qed.

(** ** Rendering *)

(** X7: rendering while a document is in memory, or while a fetch is under
    way, sends nothing and leaves the state as it is; the context shows the
    fronts of the state together with its loading flag and error. *)
Theorem render_with_document_is_silent (reply : Reply) (s : App) :
  is_Some (frontsData s) \/ loading s = true ->
  _prepareContext reply s
  = (Return (mkContext (view_front s <$> fronts_or_empty s)
                       (loading s) (error s)),
     s, []).
Proof.
  intros H. rewrite prepareContext_run. unfold after_prepare.
  assert (Hno : must_fetch s = false).
  { unfold must_fetch. destruct H as [H | ->].
    - by rewrite (bool_decide_eq_true_2 _ H).
    - apply andb_false_r. }
  by rewrite Hno.
Qed.

Lemma render_with_document_is_silent_witness :
  _prepareContext (Rejected (js "Failed to fetch")) Sample.loaded
  = (Return (mkContext (view_front Sample.loaded
                          <$> fronts_or_empty Sample.loaded)
                       (loading Sample.loaded) (error Sample.loaded)),
     Sample.loaded, []).
Proof.
  apply (render_with_document_is_silent (Rejected (js "Failed to fetch"))
           Sample.loaded).
  left. by eexists.
Defined.

(** X8: rendering without a document and with no fetch under way fetches
    once.  When that fetch fails, the context has no fronts and carries the
    error, and the state is again without a document and not loading, so
    that the next render fetches again. *)
Theorem render_without_document_fetches (reply : Reply) (s : App) :
  frontsData s = None ->
  loading s = false ->
  trace_of (_prepareContext reply s) = [GetFronts]
  /\ (forall d, delivers reply d ->
        frontsData (app_of (_prepareContext reply s)) = Some d)
  /\ (fails reply = true ->
      exists ctx,
        result_of (_prepareContext reply s) = Return ctx
        /\ ctx_fronts ctx = []
        /\ is_Some (ctx_error ctx)
        /\ ctx_loading ctx = false
        /\ must_fetch (app_of (_prepareContext reply s)) = true).
Proof.
  intros Hdoc Hload. rewrite prepareContext_run.
  assert (Hyes : must_fetch s = true).
  { unfold must_fetch. rewrite Hdoc, Hload. reflexivity. }
  unfold after_prepare. rewrite Hyes.
  unfold trace_of, app_of at 1 3, result_of. cbn [fst snd].
  destruct (fetchFronts_run reply s)
    as (s' & E' & Hl & _ & _ & _ & Hf & Hd).
  rewrite E'. cbn [fst snd app_of].
  split; [done|]. split; [by intros d Hdel; apply (Hd d)|].
  intros Hfail. destruct (Hf Hfail) as [Hkeep Herr]. eexists.
  split; [reflexivity|]. cbn [ctx_fronts ctx_error ctx_loading].
  unfold fronts_or_empty, must_fetch. rewrite Hkeep, Hdoc, Hl. by cbn.
Qed.

Lemma render_without_document_fetches_witness :
  trace_of (_prepareContext (Rejected (js "Failed to fetch")) initial)
  = [GetFronts]
  /\ (forall d, delivers (Rejected (js "Failed to fetch")) d ->
        frontsData (app_of (_prepareContext (Rejected (js "Failed to fetch"))
                              initial)) = Some d)
  /\ (fails (Rejected (js "Failed to fetch")) = true ->
      exists ctx,
        result_of (_prepareContext (Rejected (js "Failed to fetch")) initial)
        = Return ctx
        /\ ctx_fronts ctx = []
        /\ is_Some (ctx_error ctx)
        /\ ctx_loading ctx = false
        /\ must_fetch (app_of (_prepareContext (Rejected (js "Failed to fetch"))
                                 initial)) = true).
Proof.
  apply (render_without_document_fetches (Rejected (js "Failed to fetch"))
           initial); reflexivity.
Defined.

(** ** What the handlers do to the rest of the state *)

Lemma fetched_frame reply s :
  expandedFronts (fetched reply s) = expandedFronts s
  /\ expandedDangers (fetched reply s) = expandedDangers s
  /\ scrollPosition (fetched reply s) = scrollPosition s.
Proof.
  unfold fetched.
  destruct (fetchFronts_run reply s) as (s' & E & _ & ? & ? & ? & _).
  by rewrite E.
Qed.

Ltac frame :=
  unfold app_of; cbn [fst snd];
  repeat first
    [ progress cbn [expandedFronts expandedDangers scrollPosition
                    set_expandedFronts set_expandedDangers alter_fronts
                    alter_danger set_frontsData front_id danger_id]
    | match goal with
      | |- context [expandedFronts (fetched ?r ?x)] =>
          rewrite (proj1 (fetched_frame r x))
      | |- context [expandedDangers (fetched ?r ?x)] =>
          rewrite (proj1 (proj2 (fetched_frame r x)))
      | |- context [scrollPosition (fetched ?r ?x)] =>
          rewrite (proj2 (proj2 (fetched_frame r x)))
      end ].

(** X9: a mutating handler changes the sets of expanded ids in one way
    only: the run that creates a front adds the id of that front to the
    expanded fronts, the run that creates a danger adds the id of that
    danger to the expanded dangers, whether or not the save and the refetch
    went through.  No run removes an id, and the scroll position is never
    touched. *)
Theorem handlers_only_expand_what_they_create
  (env : Env) (a : Action) (s : App) :
  expandedFronts (app_of (handle env a s))
  = match created_front env s a with
    | Some id => {[id]} ∪ expandedFronts s
    | None => expandedFronts s
    end
  /\ expandedDangers (app_of (handle env a s))
     = match created_danger env s a with
       | Some id => {[id]} ∪ expandedDangers s
       | None => expandedDangers s
       end
  /\ scrollPosition (app_of (handle env a s)) = scrollPosition s.
Proof.
  destruct a; cbn [created_front created_danger]; unfold_handlers; crank;
    cbn [absent negb andb option_bind mbind fronts]; frame;
    repeat split; reflexivity.
Qed.

(** ** Creating a front without a document *)

(** X10: submitting the new-front dialog with a name while there is no
    document in memory (the load failed), or while the document has no
    [fronts] array, throws a [TypeError] out of the callback: nothing is
    saved, fetched, rendered or shown, and the state is as before. *)
Theorem add_front_without_fronts_throws
  (env : Env) (name type : jsstring) (s : App) :
  truthy (trim name) = true ->
  frontsData s ≫= fronts = None ->
  handle env (AddFront name type) s
  = (Throw (match frontsData s with
            | None => CannotRead true "fronts"
            | Some _ => CannotRead false "push"
            end),
     s, []).
Proof.
  intros Hname Hno. unfold_handlers. rewrite Hname. steps.
  destruct (frontsData s) as [[[fs|]]|]; [discriminate| |]; reflexivity.
Qed.

Lemma add_front_without_fronts_throws_witness :
  handle Sample.online (AddFront (js "The Hollow King") (js "campaign")) initial
  = (Throw (CannotRead true "fronts"), initial, []).
Proof.
  apply (add_front_without_fronts_throws Sample.online
           (js "The Hollow King") (js "campaign") initial); reflexivity.
Defined.

(** ** A save that goes through *)

(** X11: for every mutating action whose save request succeeds, the trace is
    the save, one fetch, one render and then information notices only, with
    no error notice.  The document delivered by the refetch replaces the
    document that was sent, and no error is left; when the refetch fails the
    sent document stays in memory and the fetch error is recorded.  The
    loading flag is off at the end. *)
Theorem successful_save_is_followed_by_refetch
  (env : Env) (a : Action) (s : App) (body : option (list Front)) :
  fails (saveReply env) = false ->
  PostSave body ∈ trace_of (handle env a s) ->
  result_of (handle env a s) = Return tt
  /\ (exists post,
        trace_of (handle env a s)
        = PostSave body :: GetFronts :: Render :: post
        /\ forallb is_info post = true)
  /\ (forall d, delivers (fetchReply env) d ->
        frontsData (app_of (handle env a s)) = Some d
        /\ error (app_of (handle env a s)) = None)
  /\ (fails (fetchReply env) = true ->
        frontsData (app_of (handle env a s)) = Some (mkDocument body)
        /\ is_Some (error (app_of (handle env a s))))
  /\ loading (app_of (handle env a s)) = false.
Proof.
  intros Hok Hin.
  destruct (handle_shape env a s)
    as [(t & E & Ht) | [(e & E)
        | (sm & s' & post & E & Hdoc & Herr & Hload & Hpost)]];
    rewrite E in *; cbn in Hin |- *.
  - destruct Ht as [-> | ->]; [by apply elem_of_nil in Hin|].
    apply list_elem_of_singleton in Hin. discriminate.
  - by apply elem_of_nil in Hin.
  - destruct (fetched_spec (fetchReply env) sm)
      as (Hl & _ & _ & Hkeep & Hnew).
    destruct (frontsData sm) as [doc|] eqn:Edoc.
    + rewrite (save_events_run _ _ _ Edoc), Hok in *. cbn in Hin |- *.
      assert (body = fronts doc) as ->.
      { apply elem_of_cons in Hin as [[= ->] | Hin]; [done|].
        apply elem_of_cons in Hin as [[=] | Hin].
        apply elem_of_cons in Hin as [[=] | Hin].
        by apply info_is_no_save in Hin. }
      split; [done|]. split; [by exists post|]. split; [|split].
      * intros d Hd. rewrite Hdoc, Herr. by apply (Hnew d).
      * intros Hf. rewrite Hdoc, Herr. destruct (Hkeep Hf) as [-> ?].
        by destruct doc.
      * by rewrite Hload.
    + rewrite (save_events_null _ _ Edoc) in Hin. cbn in Hin. exfalso.
      apply elem_of_cons in Hin as [[=] | Hin].
      apply elem_of_cons in Hin as [[=] | Hin].
      apply elem_of_cons in Hin as [[=] | Hin].
      by apply info_is_no_save in Hin.
Qed.

Lemma successful_save_is_followed_by_refetch_witness :
  exists post,
    trace_of (handle Sample.online (AddStake (js "f1") (js " The crown "))
                     Sample.loaded)
    = PostSave (Some [set_stakes (Some [Some (js "The crown")]) Sample.king])
        :: GetFronts :: Render :: post
    /\ forallb is_info post = true.
Proof.
  apply (successful_save_is_followed_by_refetch Sample.online
           (AddStake (js "f1") (js " The crown ")) Sample.loaded
           (Some [set_stakes (Some [Some (js "The crown")]) Sample.king])).
  - reflexivity.
  - vm_compute. apply list_elem_of_here.
Defined.

(** ** The text dialog *)

Lemma forallb_reverse {A} (f : A -> bool) (l : list A) :
  forallb f (reverse l) = forallb f l.
Proof.
  induction l as [|x l IH]; [done|].
  rewrite reverse_cons, forallb_app, IH. cbn. by destruct (forallb f l), (f x).
Qed.

Lemma trimStart_split (s : jsstring) :
  exists l, s = l ++ trimStart s
    /\ forallb isWhiteSpace l = true
    /\ (forall c, head (trimStart s) = Some c -> isWhiteSpace c = false).
Proof.
  induction s as [|c s (l & Hs & Hl & Hhead)].
  - exists []. by repeat split.
  - cbn [trimStart]. destruct (isWhiteSpace c) eqn:Hc.
    + exists (c :: l). cbn. rewrite Hc, Hl. split; [by f_equal|done].
    + exists []. split; [done|]. split; [done|]. by intros c' [= <-].
Qed.

Lemma trimEnd_split (s : jsstring) :
  exists r, s = trimEnd s ++ r
    /\ forallb isWhiteSpace r = true
    /\ (forall c, last (trimEnd s) = Some c -> isWhiteSpace c = false).
Proof.
  unfold trimEnd.
  destruct (trimStart_split (reverse s)) as (l & Hs & Hl & Hhead).
  exists (reverse l). split; [|split].
  - rewrite <- reverse_app, <- Hs. by rewrite reverse_involutive.
  - by rewrite forallb_reverse.
  - intros c. rewrite last_reverse. apply Hhead.
Qed.

Lemma trim_split (s : jsstring) :
  exists l r, s = l ++ trim s ++ r
    /\ forallb isWhiteSpace l = true
    /\ forallb isWhiteSpace r = true
    /\ (forall c, head (trim s) = Some c -> isWhiteSpace c = false)
    /\ (forall c, last (trim s) = Some c -> isWhiteSpace c = false).
Proof.
  unfold trim.
  destruct (trimStart_split s) as (l & Hs & Hl & Hhead).
  destruct (trimEnd_split (trimStart s)) as (r & Ht & Hr & Hlast).
  exists l, r. split; [by rewrite <- Ht|]. split; [done|]. split; [done|].
  split; [|done].
  intros c Hc. apply Hhead. rewrite Ht.
  destruct (trimEnd (trimStart s)); [discriminate|exact Hc].
Qed.

Lemma trim_blank (s : jsstring) :
  truthy (trim s) = negb (forallb isWhiteSpace s).
Proof.
  destruct (trim_split s) as (l & r & Hs & Hl & Hr & Hhead & _).
  destruct (trim s) as [|c t] eqn:Et; cbn.
  - rewrite Hs, forallb_app, Hl. cbn. by rewrite Hr.
  - rewrite Hs, !forallb_app. cbn. rewrite (Hhead c eq_refl).
    cbn. by rewrite andb_false_r.
Qed.

(** X12: the text dialog runs its callback exactly when the submitted text
    has a code unit that is not white space.  The value it hands over is the
    submitted text without the white space at its two ends: it starts and
    ends with a code unit that is not white space.  The information notice
    follows the callback whatever the callback did. *)
Theorem text_dialog_hands_over_trimmed_text
  (raw : jsstring) (onSave : jsstring -> M unit) (s : App) :
  showEditTextDialog raw onSave s
  = (if forallb isWhiteSpace raw then ret tt
     else onSave (trim raw);; emit (NotifyInfo (js "Gespeichert"))) s
  /\ exists l r,
       raw = l ++ trim raw ++ r
       /\ forallb isWhiteSpace l = true
       /\ forallb isWhiteSpace r = true
       /\ (forall c, head (trim raw) = Some c -> isWhiteSpace c = false)
       /\ (forall c, last (trim raw) = Some c -> isWhiteSpace c = false).
Proof.
  split; [|apply trim_split].
  unfold showEditTextDialog. rewrite trim_blank.
  by destruct (forallb isWhiteSpace raw).
Qed.

(** ** Lines addressed by their index *)

Lemma array_set_spec (a : list slot) (i : nat) (v : jsstring) :
  array_set a i v !! i = Some (Some v)
  /\ length (array_set a i v) = Nat.max (length a) (S i)
  /\ (forall j, (j < length a)%nat -> j ≠ i -> array_set a i v !! j = a !! j)
  /\ (forall j, (length a <= j)%nat -> (j < i)%nat ->
        array_set a i v !! j = Some None).
Proof.
  unfold array_set, slot, jsstring in *.
  destruct (decide (i < length a)%nat) as [Hin|Hout].
  - split; [by apply list_lookup_insert_eq|].
    split; [rewrite length_insert; lia|].
    split; [|intros; lia].
    intros j _ Hne. by apply list_lookup_insert_ne.
  - split; [|split; [|split]].
    + rewrite lookup_app_r by lia.
      rewrite lookup_app_r by (rewrite length_replicate; lia).
      rewrite length_replicate. by rewrite Nat.sub_diag.
    + rewrite !length_app, length_replicate. cbn. lia.
    + intros j Hj _. by apply lookup_app_l.
    + intros j Hge Hlt. rewrite lookup_app_r by lia.
      rewrite lookup_app_l by (rewrite length_replicate; lia).
      apply lookup_replicate_2. lia.
Qed.

Lemma delete_past_end {A} (l : list A) (i : nat) :
  (length l <= i)%nat -> delete i l = l.
Proof.
  intros H. rewrite delete_take_drop, take_ge, drop_ge by lia.
  apply app_nil_r.
Qed.

(** X13: editing a cast line through the dialog opened on the same document
    saves the front with the trimmed text at the given index.  In range, the
    line is replaced and the others are kept; past the end, the array grows
    to reach the index and the positions in between are left empty. *)
Theorem edit_cast_writes_at_index
  (env : Env) (s : App) (frontId raw : jsstring) (index : nat)
  (front : FrontRef) (a : list slot) :
  getFront s frontId = Some front ->
  cast (obj front) = Some a ->
  truthy (trim raw) = true ->
  exists i fs post a',
    frontsData s = Some (mkDocument (Some fs))
    /\ fs !! i = Some (obj front)
    /\ trace_of (handle env (EditCast (getFront s frontId) index raw) s)
       = PostSave (Some (<[i := set_cast (Some a') (obj front)]> fs)) :: post
    /\ a' !! index = Some (Some (trim raw))
    /\ length a' = Nat.max (length a) (S index)
    /\ (forall j, (j < length a)%nat -> j ≠ index -> a' !! j = a !! j)
    /\ (forall j, (length a <= j)%nat -> (j < index)%nat -> a' !! j = Some None).
Proof.
  intros Hfront Hcast Hraw.
  destruct (getFront_document _ _ _ Hfront) as (i & fs & Hpos & Hdoc & Hi).
  exists i, fs. unfold_handlers. rewrite Hraw. steps. rewrite Hfront.
  destruct front as [p f]. cbn [pos obj] in *. subst p. rewrite Hcast. steps.
  erewrite save_events_run
    by (unfold alter_fronts; rewrite Hdoc; reflexivity).
  unfold trace_of. cbn [snd app fronts fmap option_fmap option_map].
  do 2 eexists. split; [done|]. split; [done|]. split; [reflexivity|].
  apply array_set_spec.
Qed.

Lemma edit_cast_writes_at_index_witness :
  exists i fs post a',
    frontsData Scene.loaded = Some (mkDocument (Some fs))
    /\ fs !! i = Some Scene.king
    /\ trace_of (handle Sample.online
                   (EditCast (getFront Scene.loaded (js "f1")) 4%nat
                             (js " The Regent "))
                   Scene.loaded)
       = PostSave (Some (<[i := set_cast (Some a') Scene.king]> fs)) :: post
    /\ a' !! 4%nat = Some (Some (trim (js " The Regent ")))
    /\ length a'
        = Nat.max (length [Some (js "The Mayor"); Some (js "The Priest")]) 5
    /\ (forall j,
          (j < length [Some (js "The Mayor"); Some (js "The Priest")])%nat ->
          j ≠ 4%nat ->
          a' !! j = [Some (js "The Mayor"); Some (js "The Priest")] !! j)
    /\ (forall j,
          (length [Some (js "The Mayor"); Some (js "The Priest")] <= j)%nat ->
          (j < 4)%nat -> a' !! j = Some None).
Proof.
  apply (edit_cast_writes_at_index Sample.online Scene.loaded (js "f1")
           (js " The Regent ") 4%nat (Ref (Some 0%nat) Scene.king)
           [Some (js "The Mayor"); Some (js "The Priest")]);
    reflexivity.
Defined.

(** X14: deleting a cast line saves the front without the line at the given
    index, the lines before it kept in place and the lines after it moved
    up by one.  With an index past the end nothing is removed, and the
    unchanged document is saved all the same. *)
Theorem delete_cast_removes_at_index
  (env : Env) (s : App) (frontId : jsstring) (index : nat)
  (front : FrontRef) (a : list slot) :
  getFront s frontId = Some front ->
  cast (obj front) = Some a ->
  exists i fs post a',
    frontsData s = Some (mkDocument (Some fs))
    /\ fs !! i = Some (obj front)
    /\ trace_of (handle env (DeleteCast frontId index) s)
       = PostSave (Some (<[i := set_cast (Some a') (obj front)]> fs)) :: post
    /\ (forall j, (j < index)%nat -> a' !! j = a !! j)
    /\ (forall j, (index <= j)%nat -> a' !! j = a !! S j)
    /\ ((index < length a)%nat -> length a' = (length a - 1)%nat)
    /\ ((length a <= index)%nat ->
        <[i := set_cast (Some a') (obj front)]> fs = fs).
Proof.
  intros Hfront Hcast.
  destruct (getFront_document _ _ _ Hfront) as (i & fs & Hpos & Hdoc & Hi).
  exists i, fs. unfold_handlers. steps. rewrite Hfront.
  destruct front as [p f]. cbn [pos obj] in *. subst p. rewrite Hcast. steps.
  erewrite save_events_run
    by (unfold alter_fronts; rewrite Hdoc; reflexivity).
  unfold trace_of, splice1. cbn [snd app fronts fmap option_fmap option_map].
  do 2 eexists. split; [done|]. split; [done|]. split; [reflexivity|].
  split; [by intros j Hj; apply list_lookup_delete_lt|].
  split; [by intros j Hj; apply list_lookup_delete_ge|].
  split.
  - intros Hlt. apply length_delete. by apply lookup_lt_is_Some.
  - intros Hge. rewrite delete_past_end by done.
    apply list_insert_id. rewrite Hi. f_equal.
    destruct f. cbn in Hcast. by subst.
Qed.

Lemma delete_cast_removes_at_index_witness :
  exists i fs post a',
    frontsData Scene.loaded = Some (mkDocument (Some fs))
    /\ fs !! i = Some Scene.king
    /\ trace_of (handle Sample.online (DeleteCast (js "f1") 0%nat)
                        Scene.loaded)
       = PostSave (Some (<[i := set_cast (Some a') Scene.king]> fs)) :: post
    /\ (forall j, (j < 0)%nat ->
          a' !! j = [Some (js "The Mayor"); Some (js "The Priest")] !! j)
    /\ (forall j, (0 <= j)%nat ->
          a' !! j = [Some (js "The Mayor"); Some (js "The Priest")] !! S j)
    /\ ((0 < length [Some (js "The Mayor"); Some (js "The Priest")])%nat ->
        length a'
        = (length [Some (js "The Mayor"); Some (js "The Priest")] - 1)%nat)
    /\ ((length [Some (js "The Mayor"); Some (js "The Priest")] <= 0)%nat ->
        <[i := set_cast (Some a') Scene.king]> fs = fs).
Proof.
  apply (delete_cast_removes_at_index Sample.online Scene.loaded (js "f1")
           0%nat (Ref (Some 0%nat) Scene.king)
           [Some (js "The Mayor"); Some (js "The Priest")]); reflexivity.
Defined.

(** ** Items deleted by their id *)

Lemma filter_all {A} (P : A -> Prop) `{!∀ x, Decision (P x)} (l : list A) :
  (forall x, x ∈ l -> P x) -> filter P l = l.
Proof.
  induction l as [|x l IH]; intros Hall; [done|].
  rewrite filter_cons, decide_True by (apply Hall; left).
  f_equal. apply IH. intros y Hy. apply Hall. by right.
Qed.

Lemma filter_none {A} (P : A -> Prop) `{!∀ x, Decision (P x)} (l : list A) :
  (forall x, x ∈ l -> ~ P x) -> filter P l = [].
Proof.
  induction l as [|x l IH]; intros Hno; [done|].
  rewrite filter_cons, decide_False by (apply Hno; left).
  apply IH. intros y Hy. apply Hno. by right.
Qed.

Lemma danger_in_place (fs : list Front) (i j : nat) (f : Front) (d : Danger) :
  fs !! i = Some f -> dangers f !! j = Some d ->
  <[i := set_dangers (<[j := d]> (dangers f)) f]> fs = fs.
Proof.
  intros Hi Hj. rewrite (list_insert_id (dangers f)) by done.
  apply list_insert_id. rewrite Hi. by destruct f.
Qed.

(** X15: deleting a portent saves its danger with exactly the portents that
    carry another id, in their order; the rest of the danger and of the
    document is as before.  When no portent of the danger carries the id,
    the unchanged document is saved all the same. *)
Theorem delete_portent_filters_by_id
  (env : Env) (s : App) (dangerId portentId : jsstring)
  (fr : FrontRef) (dr : DangerRef) (ps : list Portent) :
  getDanger s dangerId = Some (fr, dr) ->
  grimPortents (obj dr) = Some ps ->
  exists i j fs post ps',
    frontsData s = Some (mkDocument (Some fs))
    /\ fs !! i = Some (obj fr)
    /\ dangers (obj fr) !! j = Some (obj dr)
    /\ trace_of (handle env (DeletePortent dangerId portentId) s)
       = PostSave
           (Some (<[i := set_dangers
                          (<[j := set_grimPortents (Some ps') (obj dr)]>
                             (dangers (obj fr)))
                          (obj fr)]> fs))
           :: post
    /\ (forall p, p ∈ ps' <-> p ∈ ps /\ portent_id p ≠ portentId)
    /\ ps' `sublist_of` ps
    /\ ((forall p, p ∈ ps -> portent_id p ≠ portentId) ->
        <[i := set_dangers
                 (<[j := set_grimPortents (Some ps') (obj dr)]>
                    (dangers (obj fr)))
                 (obj fr)]> fs = fs).
Proof.
  intros Hdanger Hps.
  destruct (getDanger_document _ _ _ _ Hdanger)
    as (i & j & fs & Hpos & Hdoc & Hi & Hj).
  exists i, j, fs. unfold_handlers. steps. rewrite Hdanger.
  destruct dr as [p d]. cbn [pos obj] in *. subst p. rewrite Hps. steps.
  erewrite save_events_run
    by (unfold alter_danger, alter_fronts; rewrite Hdoc; reflexivity).
  unfold trace_of. cbn [snd app fronts fmap option_fmap option_map].
  rewrite (list_alter_at _ _ _ _ Hi), (list_alter_at _ _ _ _ Hj).
  do 2 eexists. split; [done|]. split; [done|]. split; [done|].
  split; [reflexivity|]. split; [|split].
  - intros q. rewrite list_elem_of_filter. tauto.
  - apply sublist_filter.
  - intros Hnone. rewrite filter_all by done.
    replace (set_grimPortents (Some ps) d) with d
      by (destruct d; cbn in Hps; by subst).
    by apply danger_in_place.
Qed.

Lemma delete_portent_filters_by_id_witness :
  exists i j fs post ps',
    frontsData Scene.loaded = Some (mkDocument (Some fs))
    /\ fs !! i = Some Scene.king
    /\ dangers Scene.king !! j = Some Scene.cult
    /\ trace_of (handle Sample.online (DeletePortent (js "d1") (js "p1"))
                        Scene.loaded)
       = PostSave
           (Some (<[i := set_dangers
                          (<[j := set_grimPortents (Some ps') Scene.cult]>
                             (dangers Scene.king))
                          Scene.king]> fs))
           :: post
    /\ (forall p, p ∈ ps' <->
                  p ∈ [Scene.omen1; Scene.omen2] /\ portent_id p ≠ js "p1")
    /\ ps' `sublist_of` [Scene.omen1; Scene.omen2]
    /\ ((forall p, p ∈ [Scene.omen1; Scene.omen2] -> portent_id p ≠ js "p1") ->
        <[i := set_dangers
                 (<[j := set_grimPortents (Some ps') Scene.cult]>
                    (dangers Scene.king))
                 Scene.king]> fs = fs).
Proof.
  apply (delete_portent_filters_by_id Sample.online Scene.loaded (js "d1")
           (js "p1") (Ref (Some 0%nat) Scene.king)
           (Ref (Some (0%nat, 0%nat)) Scene.cult)
           [Scene.omen1; Scene.omen2]); reflexivity.
Defined.

(** X16: deleting a secret saves its danger with exactly the secrets that
    carry another id, in their order; when no secret of the danger carries
    the id, the unchanged document is saved all the same. *)
Theorem delete_secret_filters_by_id
  (env : Env) (s : App) (dangerId secretId : jsstring)
  (fr : FrontRef) (dr : DangerRef) (ss : list Secret) :
  getDanger s dangerId = Some (fr, dr) ->
  secrets (obj dr) = Some ss ->
  exists i j fs post ss',
    frontsData s = Some (mkDocument (Some fs))
    /\ fs !! i = Some (obj fr)
    /\ dangers (obj fr) !! j = Some (obj dr)
    /\ trace_of (handle env (DeleteSecret dangerId secretId) s)
       = PostSave
           (Some (<[i := set_dangers
                          (<[j := set_secrets (Some ss') (obj dr)]>
                             (dangers (obj fr)))
                          (obj fr)]> fs))
           :: post
    /\ (forall x, x ∈ ss' <-> x ∈ ss /\ secret_id x ≠ secretId)
    /\ ss' `sublist_of` ss
    /\ ((forall x, x ∈ ss -> secret_id x ≠ secretId) ->
        <[i := set_dangers
                 (<[j := set_secrets (Some ss') (obj dr)]>
                    (dangers (obj fr)))
                 (obj fr)]> fs = fs).
Proof.
  intros Hdanger Hss.
  destruct (getDanger_document _ _ _ _ Hdanger)
    as (i & j & fs & Hpos & Hdoc & Hi & Hj).
  exists i, j, fs. unfold_handlers. steps. rewrite Hdanger.
  destruct dr as [p d]. cbn [pos obj] in *. subst p. rewrite Hss. steps.
  erewrite save_events_run
    by (unfold alter_danger, alter_fronts; rewrite Hdoc; reflexivity).
  unfold trace_of. cbn [snd app fronts fmap option_fmap option_map].
  rewrite (list_alter_at _ _ _ _ Hi), (list_alter_at _ _ _ _ Hj).
  do 2 eexists. split; [done|]. split; [done|]. split; [done|].
  split; [reflexivity|]. split; [|split].
  - intros q. rewrite list_elem_of_filter. tauto.
  - apply sublist_filter.
  - intros Hnone. rewrite filter_all by done.
    replace (set_secrets (Some ss) d) with d
      by (destruct d; cbn in Hss; by subst).
    by apply danger_in_place.
Qed.

Lemma delete_secret_filters_by_id_witness :
  exists i j fs post ss',
    frontsData Scene.loaded = Some (mkDocument (Some fs))
    /\ fs !! i = Some Scene.king
    /\ dangers Scene.king !! j = Some Scene.cult
    /\ trace_of (handle Sample.online (DeleteSecret (js "d1") (js "s1"))
                        Scene.loaded)
       = PostSave
           (Some (<[i := set_dangers
                          (<[j := set_secrets (Some ss') Scene.cult]>
                             (dangers Scene.king))
                          Scene.king]> fs))
           :: post
    /\ (forall x, x ∈ ss' <-> x ∈ [Scene.lore] /\ secret_id x ≠ js "s1")
    /\ ss' `sublist_of` [Scene.lore]
    /\ ((forall x, x ∈ [Scene.lore] -> secret_id x ≠ js "s1") ->
        <[i := set_dangers
                 (<[j := set_secrets (Some ss') Scene.cult]>
                    (dangers Scene.king))
                 Scene.king]> fs = fs).
Proof.
  apply (delete_secret_filters_by_id Sample.online Scene.loaded (js "d1")
           (js "s1") (Ref (Some 0%nat) Scene.king)
           (Ref (Some (0%nat, 0%nat)) Scene.cult) [Scene.lore]); reflexivity.
Defined.

(** ** Finding what was added *)

Lemma owned_elem (fs : list Front) (p : Front * Danger) :
  p ∈ owned fs <-> p.1 ∈ fs /\ p.2 ∈ dangers p.1.
Proof.
  unfold owned. rewrite list_elem_of_bind. split.
  - intros (f & Hp & Hf). apply list_elem_of_fmap in Hp as (d & -> & Hd). done.
  - intros [Hf Hd]. exists p.1. split; [|done].
    apply list_elem_of_fmap. exists p.2. split; [by destruct p|done].
Qed.

Lemma owned_app (fs gs : list Front) : owned (fs ++ gs) = owned fs ++ owned gs.
Proof. apply bind_app. Qed.

Lemma findDanger_in_new_front (id : jsstring) (fs : list Front) (i : nat)
  (f f' : Front) (d : Danger) (ds : list Danger) :
  fs !! i = Some f ->
  dangers f' = ds ++ [d] ->
  danger_id d = id ->
  (forall g e, g ∈ fs -> e ∈ dangers g -> danger_id e ≠ id) ->
  (forall e, e ∈ ds -> danger_id e ≠ id) ->
  head (filter (fun p : Front * Danger => danger_id p.2 = id)
               (owned (<[i := f']> fs)))
  = Some (f', d).
Proof.
  intros Hi Hds Hid Hfresh Hfresh'.
  rewrite insert_take_drop by (by eapply lookup_lt_Some).
  rewrite owned_app, filter_app.
  rewrite (filter_none _ (owned (take i fs))).
  2:{ intros p Hp Hpid. apply owned_elem in Hp as [Hf Hd].
      apply elem_of_take in Hf as (k & Hk & _).
      apply (Hfresh p.1 p.2); [by eapply list_elem_of_lookup_2|done..]. }
  cbn [app]. change (f' :: drop (S i) fs) with ([f'] ++ drop (S i) fs).
  rewrite owned_app, filter_app. unfold owned at 1. cbn [mbind list_bind].
  rewrite app_nil_r, Hds, fmap_app, filter_app.
  rewrite (filter_none _ ((fun d0 => (f', d0)) <$> ds)).
  2:{ intros p Hp Hpid. apply list_elem_of_fmap in Hp as (e & -> & He).
      by apply (Hfresh' e). }
  cbn [app fmap list_fmap]. rewrite filter_cons, decide_True by done.
  reflexivity.
Qed.

(** X17: a danger created under an id that no danger of the document
    carries is found again by that id.  When the refetch fails, so that the
    document in memory is the one that was sent, [#getDanger] with the
    generated id returns the created danger, as the last danger of the front
    it was added to. *)
Theorem created_danger_is_found
  (env : Env) (s : App) (frontId name dangerType impulse doom : jsstring)
  (front : FrontRef) :
  truthy (trim name) = true ->
  getFront s frontId = Some front ->
  fails (fetchReply env) = true ->
  (forall f d, f ∈ fronts_or_empty s -> d ∈ dangers f ->
               danger_id d ≠ generateId env "danger") ->
  exists fr dr,
    getDanger (app_of (handle env
                         (AddDanger frontId name dangerType impulse doom) s))
              (generateId env "danger")
    = Some (fr, dr)
    /\ danger_id (obj dr) = generateId env "danger"
    /\ danger_name (obj dr) = trim name
    /\ front_id (obj fr) = frontId
    /\ dangers (obj fr) = dangers (obj front) ++ [obj dr].
Proof.
  intros Hname Hfront Hfail Hfresh.
  destruct (getFront_document _ _ _ Hfront) as (i & fs & Hpos & Hdoc & Hi).
  destruct (getFront_pos _ _ _ Hfront) as (_ & _ & _ & Hid).
  destruct front as [p f]. cbn [pos obj] in *. subst p.
  set (d := mkDanger (generateId env "danger") (trim name)
              (or_else (trim dangerType) (js "Unknown"))
              (or_else (trim impulse) (js "to cause chaos"))
              (or_else (trim doom) (js "Destruction"))
              (Some []) (Some []) (Some [])).
  set (f' := set_dangers (dangers f ++ [d]) f).
  assert (Hfs : fronts_or_empty s = fs).
  { unfold fronts_or_empty. by rewrite Hdoc. }
  assert (Hstate : fronts_or_empty
            (app_of (handle env
                       (AddDanger frontId name dangerType impulse doom) s))
          = <[i := f']> fs).
  { unfold_handlers. rewrite Hname. steps. rewrite Hfront.
    cbn [pos obj]. steps. fold d. fold f'.
    unfold app_of, fronts_or_empty. cbn [fst snd frontsData set_expandedDangers].
    match goal with
    | |- context [fetched ?r ?x] =>
        destruct (fetched_spec r x) as (_ & _ & _ & Hkeep & _)
    end.
    destruct (Hkeep Hfail) as [-> _].
    unfold alter_fronts. cbn [frontsData set_frontsData]. rewrite Hdoc.
    reflexivity. }
  pose proof (getDanger_first
                (app_of (handle env
                           (AddDanger frontId name dangerType impulse doom) s))
                (generateId env "danger")) as Hfirst.
  unfold findDanger_spec in Hfirst. rewrite Hstate in Hfirst.
  rewrite (findDanger_in_new_front _ fs i f f' d (dangers f))
    in Hfirst; try done.
  - destruct (getDanger _ _) as [[fr dr]|]; [|discriminate].
    cbn in Hfirst. injection Hfirst as Hfr Hdr.
    exists fr, dr. rewrite Hfr, Hdr. by repeat split.
  - by rewrite <- Hfs.
  - intros e He. apply (Hfresh f e); [|done].
    rewrite Hfs. by eapply list_elem_of_lookup_2.
Qed.

Lemma created_danger_is_found_witness :
  exists fr dr,
    getDanger (app_of (handle Sample.offline
                         (AddDanger (js "f1") (js "Ash Wraiths") [] [] [])
                         Sample.loaded))
              (generateId Sample.offline "danger")
    = Some (fr, dr)
    /\ danger_id (obj dr) = generateId Sample.offline "danger"
    /\ danger_name (obj dr) = trim (js "Ash Wraiths")
    /\ front_id (obj fr) = js "f1"
    /\ dangers (obj fr) = dangers Sample.king ++ [obj dr].
Proof.
  apply (created_danger_is_found Sample.offline Sample.loaded (js "f1")
           (js "Ash Wraiths") [] [] [] (Ref (Some 0%nat) Sample.king));
    try reflexivity.
  intros f d Hf Hd.
  apply list_elem_of_singleton in Hf as ->.
  apply list_elem_of_singleton in Hd as ->.
  vm_compute. discriminate.
Defined.

(** ** The fronts of a saved document *)

Lemma fmap_front_id_insert (fs : list Front) (i : nat) (f' : Front) :
  (exists f, fs !! i = Some f /\ front_id f = front_id f') ->
  front_id <$> <[i := f']> fs = front_id <$> fs.
Proof.
  intros (f & Hi & Hid). rewrite list_fmap_insert.
  apply list_insert_id. by rewrite list_lookup_fmap, Hi, <- Hid.
Qed.

Lemma fmap_front_id_alter (fs : list Front) (i : nat) (g : Front -> Front) :
  (forall f, front_id (g f) = front_id f) ->
  front_id <$> alter g i fs = front_id <$> fs.
Proof.
  intros Hg. apply list_eq. intros k.
  rewrite !list_lookup_fmap, list_lookup_alter.
  destruct (decide (i = k)) as [<-|]; [|done].
  destruct (fs !! i); cbn; [by rewrite Hg|done].
Qed.

Lemma payload_of reply sm body post :
  PostSave body ∈ save_events reply sm ++ GetFronts :: Render :: post ->
  forallb is_info post = true ->
  exists doc, frontsData sm = Some doc /\ body = fronts doc.
Proof.
  intros Hin Hpost. destruct (frontsData sm) as [doc|] eqn:Edoc.
  - exists doc. split; [done|].
    rewrite (save_events_run _ _ _ Edoc) in Hin.
    apply elem_of_cons in Hin as [[= ->] | Hin]; [done|]. exfalso.
    destruct (fails reply); cbn in Hin.
    + apply elem_of_cons in Hin as [[=] | Hin].
      apply elem_of_cons in Hin as [[=] | Hin].
      apply elem_of_cons in Hin as [[=] | Hin].
      by apply info_is_no_save in Hin.
    + apply elem_of_cons in Hin as [[=] | Hin].
      apply elem_of_cons in Hin as [[=] | Hin].
      by apply info_is_no_save in Hin.
  - exfalso. rewrite (save_events_null _ _ Edoc) in Hin. cbn in Hin.
    apply elem_of_cons in Hin as [[=] | Hin].
    apply elem_of_cons in Hin as [[=] | Hin].
    apply elem_of_cons in Hin as [[=] | Hin].
    by apply info_is_no_save in Hin.
Qed.

(** X18: no handler loses, duplicates or reorders fronts.  Whenever a save
    is sent, the ids of the fronts in the saved document are, in order, the
    ids of the fronts in memory before the run, followed by the id of the
    created front when the action creates one.  (A front reference handed
    to an edit must still stand for the front at its place.) *)
Theorem saved_document_keeps_the_fronts
  (env : Env) (a : Action) (s : App) (body : option (list Front)) :
  held_in_place s a ->
  PostSave body ∈ trace_of (handle env a s) ->
  front_id <$> default [] body
  = (front_id <$> fronts_or_empty s)
    ++ match created_front env s a with Some id => [id] | None => [] end.
Proof.
  intros Hheld Hin. revert Hheld Hin.
  destruct a; cbn [held_in_place created_front]; unfold_handlers; crank;
    unfold trace_of; cbn [snd]; rewrite <- ?app_assoc; cbn [app];
    intros Hheld Hin;
    try (by apply elem_of_nil in Hin);
    try (apply list_elem_of_singleton in Hin; discriminate);
    apply payload_of in Hin as (doc & Hdoc & ->); try reflexivity;
    rewrite ?app_nil_r;
    repeat match goal with
      | H : getFront _ _ = Some _ |- _ =>
          apply getFront_pos in H as (? & [= <-] & ? & ?)
      end;
    unfold alter_danger, alter_fronts, fronts_or_empty in *;
    cbn [frontsData set_frontsData] in *;
    destruct (frontsData s) as [[[fs|]]|]; try discriminate;
    cbn [fmap option_fmap option_map fronts default absent negb andb
         mbind option_bind] in *;
    injection Hdoc as <-; cbn [fronts default fmap option_fmap option_map];
    try reflexivity.
  all: try (apply fmap_front_id_insert; eauto; fail).
  all: try (apply fmap_front_id_alter; intros; reflexivity).
  unfold id. by rewrite fmap_app.
Qed.

Lemma saved_document_keeps_the_fronts_witness :
  front_id <$> default []
    (Some (fronts_or_empty Sample.loaded
           ++ [mkFront (generateId Sample.online "front") (js "The Pale Court")
                       (js "adventure") (Some []) (Some []) (Some []) []]))
  = (front_id <$> fronts_or_empty Sample.loaded)
    ++ match created_front Sample.online Sample.loaded
               (AddFront (js "The Pale Court") (js "adventure")) with
       | Some id => [id]
       | None => []
       end.
Proof.
  apply (saved_document_keeps_the_fronts Sample.online
           (AddFront (js "The Pale Court") (js "adventure")) Sample.loaded).
  - exact I.
  - vm_compute. apply list_elem_of_here.
Defined.

(** ** Creating a portent *)

(** X19: a portent added through the text dialog is saved as the last
    portent of its danger, with the generated id, the trimmed text and not
    completed; a danger without a portent array gets one holding the new
    portent alone. *)
Theorem created_portent_defaults
  (env : Env) (s : App) (dangerId raw : jsstring)
  (fr : FrontRef) (dr : DangerRef) :
  truthy (trim raw) = true ->
  getDanger s dangerId = Some (fr, dr) ->
  exists i j fs post,
    frontsData s = Some (mkDocument (Some fs))
    /\ fs !! i = Some (obj fr)
    /\ dangers (obj fr) !! j = Some (obj dr)
    /\ trace_of (handle env (AddPortent dangerId raw) s)
       = PostSave
           (Some (<[i := set_dangers
                          (<[j := set_grimPortents
                                    (Some (default [] (grimPortents (obj dr))
                                           ++ [mkPortent
                                                 (generateId env "portent")
                                                 (trim raw) false]))
                                    (obj dr)]> (dangers (obj fr)))
                          (obj fr)]> fs))
           :: post.
Proof.
  intros Hraw Hdanger.
  destruct (getDanger_document _ _ _ _ Hdanger)
    as (i & j & fs & Hpos & Hdoc & Hi & Hj).
  exists i, j, fs. unfold_handlers. rewrite Hraw. steps. rewrite Hdanger.
  destruct dr as [p d]. cbn [pos obj] in *. subst p. steps.
  erewrite save_events_run
    by (unfold alter_danger, alter_fronts; rewrite Hdoc; reflexivity).
  unfold trace_of. cbn [snd app fronts fmap option_fmap option_map].
  rewrite (list_alter_at _ _ _ _ Hi), (list_alter_at _ _ _ _ Hj).
  by eexists.
Qed.

Lemma created_portent_defaults_witness :
  exists i j fs post,
    frontsData Scene.loaded = Some (mkDocument (Some fs))
    /\ fs !! i = Some Scene.king
    /\ dangers Scene.king !! j = Some Scene.cult
    /\ trace_of (handle Sample.online
                   (AddPortent (js "d1") (js " The mayor vanishes "))
                   Scene.loaded)
       = PostSave
           (Some (<[i := set_dangers
                          (<[j := set_grimPortents
                                    (Some (default [] (grimPortents Scene.cult)
                                           ++ [mkPortent
                                                 (generateId Sample.online
                                                             "portent")
                                                 (trim (js " The mayor vanishes "))
                                                 false]))
                                    Scene.cult]> (dangers Scene.king))
                          Scene.king]> fs))
           :: post.
Proof.
  apply (created_portent_defaults Sample.online Scene.loaded (js "d1")
           (js " The mayor vanishes ") (Ref (Some 0%nat) Scene.king)
           (Ref (Some (0%nat, 0%nat)) Scene.cult)); reflexivity.
Defined.
